(** * Geminary: the request lifecycle of the Gemini desktop chat client

    A shallow embedding of [core/gemini_api.py], [core/db_manager.py] and of
    the worker and controller parts of [ui/main_window.py], followed by the
    properties of the specification that concern them.

    Python values are modelled as follows.  A [str] is a [string] whose
    characters are code points below 256.  An exception is a [PyExn] (class
    and message); a call that may raise returns a [PyResult].  Module-level
    and object state is passed explicitly. *)

From Stdlib Require Import String Ascii List Bool Arith ZArith Lia.
From Stdlib Require Import Sorting.Sorted Sorting.Permutation.
Import ListNotations.

Open Scope list_scope.
Open Scope string_scope.

(** ** Python strings, exceptions and results *)

Module Py.

(** The newline character. *)
Definition nl : string := String "010"%char EmptyString.

(** [s.startswith(p)] *)
Definition startswith (s p : string) : bool := String.prefix p s.

(** [str.isspace] on one character, for code points below 256: the
    controls 9-13 and 28-31, the space, NEL (133) and NBSP (160). *)
Definition isspace (c : ascii) : bool :=
  let n := nat_of_ascii c in
  (((9 <=? n) && (n <=? 13)) || ((28 <=? n) && (n <=? 32))
   || (n =? 133) || (n =? 160))%nat.

Fixpoint lstrip (s : string) : string :=
  match s with
  | EmptyString => EmptyString
  | String c r => if isspace c then lstrip r else s
  end.

Fixpoint rstrip (s : string) : string :=
  match s with
  | EmptyString => EmptyString
  | String c r =>
      match rstrip r with
      | EmptyString => if isspace c then EmptyString else String c EmptyString
      | r' => String c r'
      end
  end.

(** [s.strip()] *)
Definition strip (s : string) : string := rstrip (lstrip s).

(** [s.endswith(suffix)]: some tail of [s] is [suffix]. *)
Fixpoint endswith (s suffix : string) : bool :=
  String.eqb s suffix
  || match s with
     | EmptyString => false
     | String _ r => endswith r suffix
     end.

(** Every character of [s] is white space. *)
Fixpoint whitespace_only (s : string) : bool :=
  match s with
  | EmptyString => true
  | String c r => isspace c && whitespace_only r
  end.

(** Truthiness of a [str]. *)
Definition truthy (s : string) : bool :=
  match s with EmptyString => false | _ => true end.

(** [sep.join(l)] *)
Definition join (sep : string) (l : list string) : string :=
  String.concat sep l.

(** [s.split(sep)] for a one-character separator. *)
Fixpoint split (sep : ascii) (s : string) : list string :=
  match s with
  | EmptyString => [EmptyString]
  | String c r =>
      if Ascii.eqb c sep then EmptyString :: split sep r
      else match split sep r with
           | h :: t => String c h :: t
           | [] => [String c EmptyString]
           end
  end.

(** [s.replace(old, new)]: every non-overlapping occurrence of [old],
    scanning from the left.  [skip] counts the characters of a matched
    occurrence that are still to be dropped. *)
Fixpoint replace_from (old new : string) (skip : nat) (s : string) : string :=
  match s with
  | EmptyString => EmptyString
  | String c r =>
      match skip with
      | S k => replace_from old new k r
      | O =>
          if truthy old && String.prefix old s
          then new ++ replace_from old new (String.length old - 1)%nat r
          else String c (replace_from old new 0 r)
      end
  end.

Definition replace (s old new : string) : string :=
  replace_from old new 0 s.

(** [sorted(l)] on a list of [str]: ascending in the order of the code
    points.  The order is total and equal strings are indistinguishable,
    so the result does not depend on the sorting algorithm. *)
Fixpoint insert_sorted (x : string) (l : list string) : list string :=
  match l with
  | [] => [x]
  | y :: t => if String.leb x y then x :: l else y :: insert_sorted x t
  end.

Fixpoint sorted (l : list string) : list string :=
  match l with
  | [] => []
  | x :: t => insert_sorted x (sorted t)
  end.

(** [s.lower()], for code points below 256: the letters A-Z and the
    accented capitals 192-222 other than the multiplication sign. *)
Definition lower_char (c : ascii) : ascii :=
  let n := nat_of_ascii c in
  if (((65 <=? n) && (n <=? 90))
      || ((192 <=? n) && (n <=? 222) && negb (n =? 215)))%nat
  then ascii_of_nat (n + 32) else c.

Fixpoint lower (s : string) : string :=
  match s with
  | EmptyString => EmptyString
  | String c r => String (lower_char c) (lower r)
  end.

(** [c not in s] for a character [c]. *)
Fixpoint lacks (c : ascii) (s : string) : bool :=
  match s with
  | EmptyString => true
  | String d r => negb (Ascii.eqb d c) && lacks c r
  end.

(** The order of [sorted] on strings. *)
Definition str_le (a b : string) : Prop := String.leb a b = true.

(** Exception classes the program meets.  [RequestException] stands for
    [requests.exceptions.RequestException] and its subclasses,
    [SqliteError] for [sqlite3.Error] and its subclasses. *)
Inductive ExnClass : Type :=
| RequestException
| PermissionDenied
| ResourceExhausted
| ValueError
| NameError
| SqliteError
| OtherException (type_name : string).

Record PyExn : Type := mkExn { exn_class : ExnClass; exn_msg : string }.

(** [type(e).__name__] *)
Definition type_name (e : PyExn) : string :=
  match exn_class e with
  | RequestException => "RequestException"
  | PermissionDenied => "PermissionDenied"
  | ResourceExhausted => "ResourceExhausted"
  | ValueError => "ValueError"
  | NameError => "NameError"
  | SqliteError => "Error"
  | OtherException n => n
  end.

Definition is_class (c : ExnClass) (e : PyExn) : bool :=
  match c, exn_class e with
  | RequestException, RequestException => true
  | PermissionDenied, PermissionDenied => true
  | ResourceExhausted, ResourceExhausted => true
  | ValueError, ValueError => true
  | NameError, NameError => true
  | SqliteError, SqliteError => true
  | _, _ => false
  end.

(** The outcome of a call: a returned value or a propagating exception. *)
Inductive PyResult (A : Type) : Type :=
| Return (a : A)
| Raise (e : PyExn).
Arguments Return {A} a.
Arguments Raise {A} e.

(** The exception of looking up a name that is bound nowhere. *)
Definition name_error (name : string) : PyExn :=
  mkExn NameError ("name '" ++ name ++ "' is not defined").

End Py.
Import Py.

(** ** core/gemini_api.py *)

Module gemini_api.

(** *** The provider library, as the module sees it *)

(** [response.prompt_feedback.block_reason]: a protobuf enum member; the
    member of value 0 is falsy. *)
Module BlockReason.
Inductive t : Type := BLOCK_REASON_UNSPECIFIED | SAFETY | OTHER.
Definition name (r : t) : string :=
  match r with
  | BLOCK_REASON_UNSPECIFIED => "BLOCK_REASON_UNSPECIFIED"
  | SAFETY => "SAFETY"
  | OTHER => "OTHER"
  end.
Definition truthy (r : t) : bool :=
  match r with BLOCK_REASON_UNSPECIFIED => false | _ => true end.
End BlockReason.

(** [genai.types.FinishReason], with the members the source names. *)
Module FinishReason.
Inductive t : Type :=
  FINISH_REASON_UNSPECIFIED | STOP | MAX_TOKENS | SAFETY | RECITATION | OTHER.
Definition name (r : t) : string :=
  match r with
  | FINISH_REASON_UNSPECIFIED => "FINISH_REASON_UNSPECIFIED"
  | STOP => "STOP"
  | MAX_TOKENS => "MAX_TOKENS"
  | SAFETY => "SAFETY"
  | RECITATION => "RECITATION"
  | OTHER => "OTHER"
  end.
Definition eqb (a b : t) : bool :=
  match a, b with
  | FINISH_REASON_UNSPECIFIED, FINISH_REASON_UNSPECIFIED
  | STOP, STOP | MAX_TOKENS, MAX_TOKENS | SAFETY, SAFETY
  | RECITATION, RECITATION | OTHER, OTHER => true
  | _, _ => false
  end.
End FinishReason.

(** A safety rating, by the names of its category and probability. *)
Record SafetyRating : Type := mkRating {
  category_name : string;
  probability_name : string
}.

Record Part : Type := mkPart { part_text : string }.

Record PromptFeedback : Type := mkFeedback {
  block_reason : BlockReason.t;
  feedback_safety_ratings : list SafetyRating
}.

Record Candidate : Type := mkCandidate {
  finish_reason : FinishReason.t;
  safety_ratings : list SafetyRating
}.

(** The attributes of a response that [send_query] reads. *)
Record Response : Type := mkResponse {
  parts : list Part;
  prompt_feedback : option PromptFeedback;
  candidates : list Candidate
}.

(** What the accessor [response.text] raises for a response without content
    parts.  The wording of the message belongs to the library; [send_query]
    never shows it. *)
Definition no_parts_error : PyExn :=
  mkExn ValueError "The response.text quick accessor needs a valid Part, but none was returned.".

(** [response.text], the quick accessor of the library.  It is no attribute
    of its own: the library computes it from [response.parts], raises
    [ValueError] when there are none and gives the texts of the parts
    otherwise.  [send_query] reads it on line 114 only. *)
Definition text (response : Response) : PyResult string :=
  match parts response with
  | [] => Raise no_parts_error
  | _ :: _ => Return (Py.join EmptyString (map part_text (parts response)))
  end.

(** [m.name] and [m.supported_generation_methods] of a listed model. *)
Record ModelInfo : Type := mkModel {
  model_name : string;
  supported_generation_methods : list string
}.

(** What the library does when called: [genai.configure(api_key=k)],
    [genai.list_models()] and
    [genai.GenerativeModel(model_name=m, ...).generate_content(prompt)]. *)
Record Provider : Type := mkProvider {
  configure : string -> PyResult unit;
  fetch_models : PyResult (list ModelInfo);
  generate_content : string -> string -> PyResult Response
}.

(** The two settings the module reads through [config_manager.get_setting];
    [None] is Python's [None]. *)
Record Config : Type := mkConfig {
  api_key : option string;
  available_models : option string
}.

(** Truthiness of a setting: neither [None] nor the empty string. *)
Definition setting_truthy (v : option string) : bool :=
  match v with Some s => Py.truthy s | None => false end.

(** *** Names bound in the module

    The import statements bind [genai] ([import google.generativeai as
    genai]), [requests], [time] and [config_manager]; the module defines
    the rest.  An expression whose leading name is not in this list and is
    no builtin raises [NameError] when it is evaluated. *)
Definition module_globals : list string :=
  ["genai"; "requests"; "time"; "config_manager";
   "SAFETY_SETTINGS"; "GENERATION_CONFIG"; "_genai_configured";
   "configure_genai"; "list_models"; "send_query"].

Definition builtins : list string := ["Exception"; "print"; "sorted"; "type"].

Definition name_bound (n : string) : bool :=
  existsb (String.eqb n) (module_globals ++ builtins)%list.

(** *** [except] clauses

    A clause [except <expr> as e: <handler>]: the leading name of [<expr>],
    the exceptions the class matches, and the handler, which returns a
    string and the new value of [_genai_configured]. *)
Record ExceptClause : Type := mkClause {
  clause_root : string;
  clause_matches : PyExn -> bool;
  clause_handler : PyExn -> bool -> string * bool
}.

(** The search for a handler: the clauses are tried in order and the
    expression of a clause is evaluated when the clause is reached; if that
    evaluation raises, the new exception replaces the search. *)
Fixpoint handle (clauses : list ExceptClause) (e : PyExn) (flag : bool)
  : PyResult string * bool :=
  match clauses with
  | [] => (Raise e, flag)
  | c :: rest =>
      if negb (name_bound (clause_root c)) then
        (Raise (name_error (clause_root c)), flag)
      else if clause_matches c e then
        let '(s, flag') := clause_handler c e flag in (Return s, flag')
      else handle rest e flag
  end.

(** *** [configure_genai]

    Returns the value the function returns and the new value of
    [_genai_configured]. *)
Definition configure_genai (env : Provider) (cfg : Config) : bool * bool :=
  match api_key cfg with
  | None => (false, false)
  | Some k =>
      if negb (Py.truthy k) then (false, false)
      else match configure env k with
           | Return _ => (true, true)
           | Raise _ => (false, false)
           end
  end.

(** The guard that opens [list_models] and [send_query]:
    [if not _genai_configured: if not configure_genai(): return ...].
    The first component tells whether the function goes on. *)
Definition ensure_configured (env : Provider) (cfg : Config) (flag : bool)
  : bool * bool :=
  if flag then (true, flag) else configure_genai env cfg.

(** *** [list_models] *)

Definition not_configured_models : list string :=
  ["Error: API Key not configured or invalid"].

Definition no_suitable_models : list string :=
  ["Error: No suitable Gemini models found"].

Definition hardcoded_fallback : list string := ["gemini-1.5-flash-latest"].

Definition no_fallback_models : list string :=
  ["Error: Could not fetch models and no fallback available"].

(** ['generateContent' in m.supported_generation_methods and
    m.name.startswith('models/gemini-')] *)
Definition supports_generation (m : ModelInfo) : bool :=
  existsb (String.eqb "generateContent") (supported_generation_methods m).

Definition suitable (m : ModelInfo) : bool :=
  supports_generation m && Py.startswith (model_name m) "models/gemini-".

(** The list comprehension of line 55, sorted. *)
Definition models_cache (all_models : list ModelInfo) : list string :=
  Py.sorted
    (map (fun m => Py.replace (model_name m) "models/" EmptyString)
         (filter suitable all_models)).

(** The [except Exception] handler of [list_models]. *)
Definition fallback_models (cfg : Config) : list string :=
  let fallback :=
    match available_models cfg with
    | Some s => if Py.truthy s then Py.split ","%char s else []
    | None => []
    end in
  let fallback :=
    match fallback with [] => hardcoded_fallback | _ => fallback end in
  match fallback with [] => no_fallback_models | _ => fallback end.

Definition list_models (env : Provider) (cfg : Config) (flag : bool)
  : list string * bool :=
  let '(ok, flag) := ensure_configured env cfg flag in
  if negb ok then (not_configured_models, flag)
  else match fetch_models env with
       | Return all_models =>
           match models_cache all_models with
           | [] => (no_suitable_models, flag)
           | cache => (cache, flag)
           end
       | Raise _ => (fallback_models cfg, flag)
       end.

(** *** [send_query] *)

Definition truncation_marker : string :=
  Py.nl ++ "[... Output truncated due to length limit ...]".

(** [f"{rating.category.name}: {rating.probability.name}"] for each rating,
    then the details in parentheses after a space, or nothing when there
    are none. *)
Definition detail_str (ratings : list SafetyRating) : string :=
  match map (fun r => category_name r ++ ": " ++ probability_name r) ratings with
  | [] => EmptyString
  | details => " (" ++ Py.join ", " details ++ ")"
  end.

Definition blocked_message (fb : PromptFeedback) : string :=
  "Error: Content blocked by API due to " ++ BlockReason.name (block_reason fb)
  ++ detail_str (feedback_safety_ratings fb) ++ ". Please modify your prompt.".

Definition stopped_message (c : Candidate) : string :=
  "Error: Response generation stopped due to "
  ++ FinishReason.name (finish_reason c)
  ++ detail_str (safety_ratings c) ++ ".".

Definition empty_response_message : string :=
  "Error: Received an empty or unexpected response from the API.".

Definition not_configured_message : string :=
  "Error: API Key not configured or invalid.".

(** [response.prompt_feedback and response.prompt_feedback.block_reason],
    as the feedback when the test is truthy. *)
Definition blocking_feedback (response : Response) : option PromptFeedback :=
  match prompt_feedback response with
  | Some fb => if BlockReason.truthy (block_reason fb) then Some fb else None
  | None => None
  end.

(** Lines 95-127: the [if]/[elif] chain on the response, inside the [try]. *)
Definition read_response (response : Response) : PyResult string :=
  match parts response with
  | _ :: _ => Return (Py.join EmptyString (map part_text (parts response)))
  | [] =>
      match blocking_feedback response with
      | Some fb => Return (blocked_message fb)
      | None =>
          match candidates response with
          | c :: _ =>
              if negb (FinishReason.eqb (finish_reason c) FinishReason.STOP)
              then
                if String.eqb (FinishReason.name (finish_reason c)) "MAX_TOKENS"
                then match text response with
                     | Return t => Return (t ++ truncation_marker)
                     | Raise e => Raise e
                     end
                else Return (stopped_message c)
              else Return empty_response_message
          | [] => Return empty_response_message
          end
      end
  end.

(** Lines 130-147: the four [except] clauses, in order. *)
Definition send_query_clauses : list ExceptClause :=
  [ mkClause "requests" (Py.is_class RequestException)
      (fun e flag =>
         ("Network Error: Could not connect to API. Check your internet connection. Details: "
          ++ exn_msg e, flag));
    mkClause "google" (Py.is_class PermissionDenied)
      (fun _ _ =>
         ("Error: Invalid API Key or insufficient permissions. Please check settings. Details: API key not valid.",
          false));
    mkClause "google" (Py.is_class ResourceExhausted)
      (fun _ flag =>
         ("Error: API Quota Exceeded. Please check your usage limits or wait and try again.",
          flag));
    mkClause "Exception" (fun _ => true)
      (fun e flag =>
         ("API Error: An unexpected error occurred (" ++ Py.type_name e
          ++ "). Check logs for details. Message: " ++ exn_msg e, flag)) ].

(** [send_query(prompt, model_name)]: the result of the call and the new
    value of [_genai_configured]. *)
Definition send_query (env : Provider) (cfg : Config) (flag : bool)
    (prompt model_name : string) : PyResult string * bool :=
  let '(ok, flag) := ensure_configured env cfg flag in
  if negb ok then (Return not_configured_message, flag)
  else
    let body :=
      match generate_content env model_name prompt with
      | Return response => read_response response
      | Raise e => Raise e
      end in
    match body with
    | Return s => (Return s, flag)
    | Raise e => handle send_query_clauses e flag
    end.

End gemini_api.

(** ** core/db_manager.py *)

Module db_manager.

(** A row of the table [messages].  The timestamp is the reading of the
    clock at the insertion, as a number. *)
Record Row : Type := mkRow {
  row_id : Z;
  timestamp : Z;
  role : string;
  content : string;
  model_used : option string
}.

(** The committed content of the database file: the rows of [messages] in
    the order of their insertion, and the AUTOINCREMENT counter that
    [sqlite_sequence] keeps for the table. *)
Record Db : Type := mkDb {
  messages : list Row;
  sequence : Z
}.

Definition empty_db : Db := mkDb [] 0.

(** What [get_history] returns for a row:
    [(timestamp, role, content, model_used)]. *)
Definition HistoryRecord : Type := (Z * string * string * option string)%type.

Definition record_of (r : Row) : HistoryRecord :=
  (timestamp r, role r, content r, model_used r).

Definition record_timestamp (h : HistoryRecord) : Z :=
  match h with (t, _, _, _) => t end.

(** The exception, if any, that a call of [sqlite3] inside the [try] block
    of an operation raises before the transaction is committed.  Closing the
    connection then drops the uncommitted changes. *)
Definition Fault : Type := option PyExn.

(** [CHECK(role IN ('user', 'model', 'system'))] *)
Definition role_allowed (r : string) : bool :=
  String.eqb r "user" || String.eqb r "model" || String.eqb r "system".

Definition integrity_error : PyExn :=
  mkExn SqliteError "CHECK constraint failed: role IN ('user', 'model', 'system')".

(** [try: ... except sqlite3.Error as e: <on_error>]: an exception of
    another class propagates. *)
Definition except_sqlite {A : Type} (body : PyResult A) (on_error : A)
  : PyResult A :=
  match body with
  | Return a => Return a
  | Raise e => if Py.is_class SqliteError e then Return on_error else Raise e
  end.

(** [add_message(role, content, model_used)] at clock reading [now]. *)
Definition add_message (fault : Fault) (now : Z)
    (role content : string) (model_used : option string) (db : Db)
  : PyResult (unit * Db) :=
  let body :=
    match fault with
    | Some e => Raise e
    | None =>
        if role_allowed role then
          let id := (sequence db + 1)%Z in
          Return (tt, mkDb (messages db ++ [mkRow id now role content model_used])%list id)
        else Raise integrity_error
    end in
  except_sqlite body (tt, db).

(** The arguments of one call of [add_message] and the clock reading at
    the call. *)
Record Append : Type := mkAppend {
  append_now : Z;
  append_role : string;
  append_content : string;
  append_model : option string
}.

(** A sequence of calls of [add_message] that meet no fault of the
    database. *)
Fixpoint append_all (entries : list Append) (db : Db) : Db :=
  match entries with
  | [] => db
  | a :: rest =>
      match add_message None (append_now a) (append_role a) (append_content a)
              (append_model a) db with
      | Return (_, db') => append_all rest db'
      | Raise _ => db
      end
  end.

(** The record that [get_history] returns for the row of an append. *)
Definition record_of_append (a : Append) : HistoryRecord :=
  (append_now a, append_role a, append_content a, append_model a).

(** The faults that [sqlite3] itself produces: every exception it raises
    is a [sqlite3.Error]. *)
Definition database_fault (fault : Fault) : Prop :=
  match fault with
  | None => True
  | Some e => exn_class e = SqliteError
  end.

(** [ORDER BY timestamp DESC]: SQLite leaves the order of rows with equal
    keys open; here a row goes after the rows of the same timestamp that
    were inserted after it. *)
Fixpoint insert_desc (x : Row) (l : list Row) : list Row :=
  match l with
  | [] => [x]
  | y :: t =>
      if (timestamp y <? timestamp x)%Z then x :: l else y :: insert_desc x t
  end.

Definition order_by_timestamp_desc (rows : list Row) : list Row :=
  fold_right insert_desc [] rows.

(** The two orders on rows by timestamp. *)
Definition newer_first (a b : Row) : Prop := (timestamp b <= timestamp a)%Z.

Definition older_first (a b : Row) : Prop := (timestamp a <= timestamp b)%Z.

(** [LIMIT ?]: a negative bound means no bound. *)
Definition sql_limit {A : Type} (limit : Z) (l : list A) : list A :=
  if (limit <? 0)%Z then l else firstn (Z.to_nat limit) l.

(** The rows that the query of [get_history] fetches, reversed. *)
Definition select_history (limit : Z) (db : Db) : list Row :=
  rev (sql_limit limit (order_by_timestamp_desc (messages db))).

(** [get_history(limit)] *)
Definition get_history (fault : Fault) (limit : Z) (db : Db)
  : PyResult (list HistoryRecord) :=
  let body :=
    match fault with
    | Some e => Raise e
    | None => Return (map record_of (select_history limit db))
    end in
  except_sqlite body [].

(** [clear_history()] *)
Definition clear_history (fault : Fault) (db : Db) : PyResult (bool * Db) :=
  let body :=
    match fault with
    | Some e => Raise e
    | None => Return (true, empty_db)
    end in
  except_sqlite body (false, db).

End db_manager.

(** ** ui/main_window.py: the worker and the controller *)

Module main_window.

Import gemini_api db_manager.

(** The signals of a [Worker]; [finished] is the signal a [QThread] emits
    when [run] has returned. *)
Inductive Signal : Type :=
| response_ready (response : string)
| error_occurred (error_msg : string)
| finished.

(** Where the thread of a worker stands in [run]: before the first test of
    [_is_running], inside the call of [send_query], holding the result of
    the call before the second test, or past the end of [run]. *)
Inductive WorkerPc : Type :=
| AtStart
| InCall
| AtDelivery (result : PyResult string)
| Finished.

Record Worker : Type := mkWorker {
  prompt : string;
  model_name : string;
  _is_running : bool;
  pc : WorkerPc
}.

(** [Worker.stop] *)
Definition stop (w : Worker) : Worker :=
  mkWorker (prompt w) (model_name w) false (pc w).

(** [QThread.isRunning] of a started worker *)
Definition isRunning (w : Worker) : bool :=
  match pc w with Finished => false | _ => true end.

(** A call of [add_message_to_display(role, text, model_used)]: the
    transcript is the sequence of these calls. *)
Record DisplayRecord : Type := mkDisplay {
  display_role : string;
  display_text : string;
  display_model : option string
}.

(** The attributes of [MainWindow] that a request touches.  [message_boxes]
    collects the titles of the boxes shown through [utils]. *)
Record MainWindow : Type := mkWindow {
  input_area : string;
  input_enabled : bool;
  current_model : option string;
  api_worker : option nat;
  chat_display : list DisplayRecord;
  progress_visible : bool;
  status_label : string;
  message_boxes : list string
}.

(** The process: the window, the flag of [gemini_api], the history
    database, the workers created so far (a worker is named by its
    position) and the signals queued for the UI thread. *)
Record App : Type := mkApp {
  window : MainWindow;
  _genai_configured : bool;
  db : Db;
  workers : list Worker;
  event_queue : list (nat * Signal)
}.

Definition with_window (app : App) (w : MainWindow) : App :=
  mkApp w (_genai_configured app) (db app) (workers app) (event_queue app).

(** [add_message_to_display] *)
Definition add_message_to_display (role text : string)
    (model_used : option string) (w : MainWindow) : MainWindow :=
  mkWindow (input_area w) (input_enabled w) (current_model w) (api_worker w)
    (chat_display w ++ [mkDisplay role text model_used])%list
    (progress_visible w) (status_label w) (message_boxes w).

(** [set_status]; the timer that later resets the label is left out. *)
Definition set_status (message : string) (w : MainWindow) : MainWindow :=
  mkWindow (input_area w) (input_enabled w) (current_model w) (api_worker w)
    (chat_display w) (progress_visible w) message (message_boxes w).

Definition set_input_enabled (enabled : bool) (w : MainWindow) : MainWindow :=
  mkWindow (input_area w) enabled (current_model w) (api_worker w)
    (chat_display w) (progress_visible w) (status_label w) (message_boxes w).

Definition set_progress_visible (v : bool) (w : MainWindow) : MainWindow :=
  mkWindow (input_area w) (input_enabled w) (current_model w) (api_worker w)
    (chat_display w) v (status_label w) (message_boxes w).

Definition show_message_box (title : string) (w : MainWindow) : MainWindow :=
  mkWindow (input_area w) (input_enabled w) (current_model w) (api_worker w)
    (chat_display w) (progress_visible w) (status_label w)
    (message_boxes w ++ [title])%list.

Definition clear_input (w : MainWindow) : MainWindow :=
  mkWindow EmptyString (input_enabled w) (current_model w) (api_worker w)
    (chat_display w) (progress_visible w) (status_label w) (message_boxes w).

Definition set_api_worker (n : nat) (w : MainWindow) : MainWindow :=
  mkWindow (input_area w) (input_enabled w) (current_model w) (Some n)
    (chat_display w) (progress_visible w) (status_label w) (message_boxes w).

(** [not self.current_model or self.current_model.startswith("Error:")] *)
Definition model_invalid (m : option string) : bool :=
  match m with
  | None => true
  | Some s => negb (Py.truthy s) || Py.startswith s "Error:"
  end.

Definition model_text (m : option string) : string :=
  match m with Some s => s | None => "None" end.

(** [show_api_key_warning_once] *)
Definition show_api_key_warning_once (cfg : Config) (w : MainWindow)
  : MainWindow :=
  if setting_truthy (api_key cfg) then w else show_message_box "API Key Missing" w.

(** Replace the worker at position [n]. *)
Fixpoint update_worker (n : nat) (f : Worker -> Worker) (l : list Worker)
  : list Worker :=
  match l, n with
  | [], _ => []
  | x :: t, O => f x :: t
  | x :: t, S k => x :: update_worker k f t
  end.

(** [if self.api_worker and self.api_worker.isRunning(): self.api_worker.stop()] *)
Definition stop_previous (current : option nat) (l : list Worker) : list Worker :=
  match current with
  | Some n => update_worker n (fun w => if isRunning w then stop w else w) l
  | None => l
  end.

(** [MainWindow.send_message], called at clock reading [now]. *)
Definition send_message (env : Provider) (cfg : Config)
    (fault : Fault) (now : Z) (app : App) : PyResult App :=
  let w := window app in
  let user_input := Py.strip (input_area w) in
  if negb (Py.truthy user_input) then Return app
  else if model_invalid (current_model w) then
    Return (with_window app (show_message_box "Model Not Selected" w))
  else
    let '(ok, flag) := ensure_configured env cfg (_genai_configured app) in
    if negb ok then
      Return (mkApp (show_message_box "API Key Error" (show_api_key_warning_once cfg w))
                flag (db app) (workers app) (event_queue app))
    else
      let w := add_message_to_display "user" user_input None w in
      match add_message fault now "user" user_input None (db app) with
      | Raise e => Raise e
      | Return (_, db') =>
          let w := clear_input w in
          let w := set_input_enabled false w in
          let w := set_status ("Sending to " ++ model_text (current_model w) ++ "...") w in
          let w := set_progress_visible true w in
          let ws := stop_previous (api_worker w) (workers app) in
          let new_worker :=
            mkWorker user_input (model_text (current_model w)) true AtStart in
          Return (mkApp (set_api_worker (List.length ws) w) flag db'
                    (ws ++ [new_worker])%list (event_queue app))
      end.

(** [MainWindow.handle_api_error] *)
Definition handle_api_error (error_message : string) (app : App) : App :=
  with_window app
    (set_status "API Error occurred."
       (add_message_to_display "error" error_message None (window app))).

(** The test of [handle_response] for a response that is an error. *)
Definition is_error_text (response_text : string) : bool :=
  Py.startswith response_text "Error:" || Py.startswith response_text "Blocked:".

(** [MainWindow.handle_response] *)
Definition handle_response (fault : Fault) (now : Z) (response_text : string)
    (app : App) : PyResult App :=
  if is_error_text response_text then Return (handle_api_error response_text app)
  else
    let w := window app in
    let w := add_message_to_display "model" response_text (current_model w) w in
    match add_message fault now "model" response_text (current_model w) (db app) with
    | Raise e => Raise e
    | Return (_, db') =>
        Return (mkApp (set_status "Response received." w)
                  (_genai_configured app) db' (workers app) (event_queue app))
    end.

(** [sub in s] *)
Fixpoint contains (sub s : string) : bool :=
  String.prefix sub s
  || match s with
     | EmptyString => false
     | String _ r => contains sub r
     end.

(** [MainWindow.on_worker_finished] *)
Definition on_worker_finished (app : App) : App :=
  let w := set_progress_visible false (set_input_enabled true (window app)) in
  with_window app
    (if contains "Error" (status_label w) then w else set_status "Ready" w).

(** *** [Worker.run], one step of its thread at a time

    The error message of the [except] branch of [run]. *)
Definition worker_error_msg (e : PyExn) : string :=
  "Worker thread error: " ++ Py.type_name e ++ ": " ++ exn_msg e.

(** What the second test of [_is_running] lets through: the signal for the
    result of the call when the flag is set, nothing otherwise. *)
Definition delivery (running : bool) (result : PyResult string) : list Signal :=
  if running then
    match result with
    | Return response => [response_ready response]
    | Raise e => [error_occurred (worker_error_msg e)]
    end
  else [].

Definition tag (n : nat) (l : list Signal) : list (nat * Signal) :=
  map (fun s => (n, s)) l.

(** One step of the thread of worker [n]:
    - at the start, the first test: a cleared flag ends [run];
    - then the call of [send_query], which reads and may write the flag of
      [gemini_api];
    - then the second test and the emission.
    The signals are queued for the UI thread. *)
Definition run_step (env : Provider) (cfg : Config) (n : nat) (app : App) : App :=
  match nth_error (workers app) n with
  | None => app
  | Some wk =>
      match pc wk with
      | AtStart =>
          if _is_running wk then
            mkApp (window app) (_genai_configured app) (db app)
              (update_worker n (fun w => mkWorker (prompt w) (model_name w) (_is_running w) InCall)
                 (workers app))
              (event_queue app)
          else
            mkApp (window app) (_genai_configured app) (db app)
              (update_worker n (fun w => mkWorker (prompt w) (model_name w) (_is_running w) Finished)
                 (workers app))
              (event_queue app ++ tag n [finished])%list
      | InCall =>
          let '(result, flag) :=
            send_query env cfg (_genai_configured app) (prompt wk) (model_name wk) in
          mkApp (window app) flag (db app)
            (update_worker n (fun w => mkWorker (prompt w) (model_name w) (_is_running w) (AtDelivery result))
               (workers app))
            (event_queue app)
      | AtDelivery result =>
          mkApp (window app) (_genai_configured app) (db app)
            (update_worker n (fun w => mkWorker (prompt w) (model_name w) (_is_running w) Finished)
               (workers app))
            (event_queue app ++ tag n (delivery (_is_running wk) result ++ [finished]))%list
      | Finished => app
      end
  end.

(** The slot connected to a signal. *)
Definition slot (fault : Fault) (now : Z) (s : Signal) (app : App) : PyResult App :=
  match s with
  | response_ready response => handle_response fault now response app
  | error_occurred error_msg => Return (handle_api_error error_msg app)
  | finished => Return (on_worker_finished app)
  end.

(** The UI thread takes the first queued signal and runs its slot. *)
Definition deliver (fault : Fault) (now : Z) (app : App) : PyResult App :=
  match event_queue app with
  | [] => Return app
  | (_, s) :: rest =>
      slot fault now s
        (mkApp (window app) (_genai_configured app) (db app) (workers app) rest)
  end.

(** What can happen next: the user edits the input line, [send_message] is
    called, the thread of a worker advances, the program calls [stop] on a
    worker, or the UI thread handles a queued signal. *)
Inductive Event : Type :=
| Edit (text : string)
| Send (fault : Fault) (now : Z)
| Tick (n : nat)
| Stop (n : nat)
| Deliver (fault : Fault) (now : Z).

Definition set_input (text : string) (w : MainWindow) : MainWindow :=
  mkWindow text (input_enabled w) (current_model w) (api_worker w)
    (chat_display w) (progress_visible w) (status_label w) (message_boxes w).

Definition step (env : Provider) (cfg : Config) (ev : Event) (app : App)
  : PyResult App :=
  match ev with
  | Edit text => Return (with_window app (set_input text (window app)))
  | Send fault now => send_message env cfg fault now app
  | Tick n => Return (run_step env cfg n app)
  | Stop n =>
      Return (mkApp (window app) (_genai_configured app) (db app)
                (update_worker n stop (workers app)) (event_queue app))
  | Deliver fault now => deliver fault now app
  end.

(** A schedule, from the left; an exception that leaves a slot ends it. *)
Fixpoint run (env : Provider) (cfg : Config) (evs : list Event) (app : App)
  : PyResult App :=
  match evs with
  | [] => Return app
  | ev :: rest =>
      match step env cfg ev app with
      | Return app' => run env cfg rest app'
      | Raise e => Raise e
      end
  end.

(** The signals of worker [n] that carry an outcome. *)
Definition is_outcome (n : nat) (q : nat * Signal) : bool :=
  match q with
  | (m, response_ready _) | (m, error_occurred _) => Nat.eqb m n
  | (_, finished) => false
  end.

(** An update of a worker that does not set a cleared flag again. *)
Definition keeps_stopped (f : Worker -> Worker) : Prop :=
  forall w, _is_running w = false -> _is_running (f w) = false.

(** Worker [n] exists and its flag [_is_running] is cleared. *)
Definition is_stopped (n : nat) (app : App) : bool :=
  match nth_error (workers app) n with
  | Some wk => negb (_is_running wk)
  | None => false
  end.

(** No signal of worker [n] that carries an outcome waits in the queue. *)
Definition no_outcome_queued (n : nat) (app : App) : bool :=
  forallb (fun q => negb (is_outcome n q)) (event_queue app).

(** A window that starts with the given model selected. *)
Definition initial_window (model : option string) : MainWindow :=
  mkWindow EmptyString true model None [] false "Ready" [].

Definition initial_app (model : option string) (flag : bool) : App :=
  mkApp (initial_window model) flag empty_db [] [].

End main_window.

(** ** core/hotkey_listener.py *)

Module hotkey_listener.

(** A key as [pynput] hands it to the listener: [Special n] is the member
    of [keyboard.Key] whose name is [n], [KeyCode c] the key of the
    character [c]. *)
Inductive Key : Type :=
| Special (name : string)
| KeyCode (char : ascii).

(** [k1 == k2] *)
Definition key_eqb (k1 k2 : Key) : bool :=
  match k1, k2 with
  | Special a, Special b => String.eqb a b
  | KeyCode a, KeyCode b => Ascii.eqb a b
  | _, _ => false
  end.

(** A Python [set] of keys, as the list of its elements. *)
Fixpoint mem (k : Key) (s : list Key) : bool :=
  match s with
  | [] => false
  | x :: t => key_eqb x k || mem k t
  end.

(** [s.add(k)] *)
Definition add (k : Key) (s : list Key) : list Key :=
  if mem k s then s else k :: s.

(** [s.remove(k)] for a [k] that is in [s] *)
Definition remove (k : Key) (s : list Key) : list Key :=
  filter (fun x => negb (key_eqb x k)) s.

(** [c.issubset(s)] *)
Definition issubset (c s : list Key) : bool :=
  forallb (fun k => mem k s) c.

(** The signals of the listener. *)
Inductive HotkeySignal : Type :=
| toggle_visibility_triggered
| screenshot_full_triggered.

Definition signal_eqb (a b : HotkeySignal) : bool :=
  match a, b with
  | toggle_visibility_triggered, toggle_visibility_triggered => true
  | screenshot_full_triggered, screenshot_full_triggered => true
  | _, _ => false
  end.

(** The attributes of a [HotkeyListener] that the key handlers use.
    [_pressed_map] is kept as the list of its keys (its values are all
    [True]); [emitted] collects the signals emitted so far. *)
Record HotkeyListener : Type := mkListener {
  toggle_hotkey_comb : option (list Key);
  screenshot_hotkey_comb : option (list Key);
  current_keys : list Key;
  _pressed_map : list string;
  emitted : list HotkeySignal
}.

(** The listener as [__init__] leaves it. *)
Definition new_listener (toggle screenshot : option (list Key)) : HotkeyListener :=
  mkListener toggle screenshot [] [] [].

(** The first lines of [on_press] and [on_release]: the left and right
    variants of a modifier count as the modifier. *)
Definition normalize (key : Key) : Key :=
  if key_eqb key (Special "ctrl_l") || key_eqb key (Special "ctrl_r")
  then Special "ctrl"
  else if key_eqb key (Special "alt_l") || key_eqb key (Special "alt_gr")
          || key_eqb key (Special "alt_r")
  then Special "alt"
  else if key_eqb key (Special "shift_l") || key_eqb key (Special "shift_r")
  then Special "shift"
  else if key_eqb key (Special "cmd_l") || key_eqb key (Special "cmd_r")
  then Special "cmd"
  else key.

(** Truthiness of a combination: neither [None] nor the empty set. *)
Definition comb_held (comb : option (list Key)) (keys : list Key) : bool :=
  match comb with
  | Some (k :: c) => issubset (k :: c) keys
  | _ => false
  end.

Definition in_comb (key : Key) (comb : option (list Key)) : bool :=
  match comb with
  | Some (k :: c) => mem key (k :: c)
  | _ => false
  end.

(** One of the two blocks of [_check_hotkeys]. *)
Definition check_one (comb : option (list Key)) (entry : string)
    (s : HotkeySignal) (l : HotkeyListener) : HotkeyListener :=
  if comb_held comb (current_keys l) then
    if existsb (String.eqb entry) (_pressed_map l) then l
    else mkListener (toggle_hotkey_comb l) (screenshot_hotkey_comb l)
           (current_keys l) (entry :: _pressed_map l) (emitted l ++ [s])%list
  else l.

Definition _check_hotkeys (l : HotkeyListener) : HotkeyListener :=
  check_one (screenshot_hotkey_comb l) "screenshot" screenshot_full_triggered
    (check_one (toggle_hotkey_comb l) "toggle" toggle_visibility_triggered l).

Definition on_press (key : Key) (l : HotkeyListener) : HotkeyListener :=
  _check_hotkeys
    (mkListener (toggle_hotkey_comb l) (screenshot_hotkey_comb l)
       (add (normalize key) (current_keys l)) (_pressed_map l) (emitted l)).

(** [d.pop(entry, None)] on the keys of the dictionary *)
Definition pop (entry : string) (d : list string) : list string :=
  filter (fun x => negb (String.eqb entry x)) d.

Definition on_release (key : Key) (l : HotkeyListener) : HotkeyListener :=
  let norm_key := normalize key in
  let keys :=
    if mem norm_key (current_keys l) then remove norm_key (current_keys l)
    else current_keys l in
  let pressed :=
    if in_comb norm_key (toggle_hotkey_comb l)
    then pop "toggle" (_pressed_map l) else _pressed_map l in
  let pressed :=
    if in_comb norm_key (screenshot_hotkey_comb l)
    then pop "screenshot" pressed else pressed in
  mkListener (toggle_hotkey_comb l) (screenshot_hotkey_comb l) keys pressed
    (emitted l).

(** What the keyboard does. *)
Inductive KeyEvent : Type :=
| Press (key : Key)
| Release (key : Key).

Definition handle_event (ev : KeyEvent) (l : HotkeyListener) : HotkeyListener :=
  match ev with
  | Press key => on_press key l
  | Release key => on_release key l
  end.

Definition handle_events (evs : list KeyEvent) (l : HotkeyListener) : HotkeyListener :=
  fold_left (fun st ev => handle_event ev st) evs l.

(** How many times a signal was emitted. *)
Definition times (s : HotkeySignal) (l : HotkeyListener) : nat :=
  List.length (filter (signal_eqb s) (emitted l)).

(** *** [_parse_hotkey]

    The dictionary [key_map]. *)
Definition key_map : list (string * Key) :=
  [("ctrl", Special "ctrl"); ("alt", Special "alt"); ("shift", Special "shift");
   ("cmd", Special "cmd"); ("win", Special "cmd"); ("command", Special "cmd");
   ("esc", Special "esc"); ("space", Special "space"); ("enter", Special "enter");
   ("tab", Special "tab"); ("backspace", Special "backspace");
   ("delete", Special "delete"); ("ins", Special "insert");
   ("home", Special "home"); ("end", Special "end");
   ("pageup", Special "page_up"); ("pagedown", Special "page_down");
   ("up", Special "up"); ("down", Special "down"); ("left", Special "left");
   ("right", Special "right");
   ("f1", Special "f1"); ("f2", Special "f2"); ("f3", Special "f3");
   ("f4", Special "f4"); ("f5", Special "f5"); ("f6", Special "f6");
   ("f7", Special "f7"); ("f8", Special "f8"); ("f9", Special "f9");
   ("f10", Special "f10"); ("f11", Special "f11"); ("f12", Special "f12")].

Fixpoint lookup (part : string) (table : list (string * Key)) : option Key :=
  match table with
  | [] => None
  | (name, key) :: rest => if String.eqb part name then Some key else lookup part rest
  end.

(** The key that one part of the sequence stands for, if any.  [key_attr]
    is [getattr(keyboard.Key, part, None)]. *)
Definition part_key (key_attr : string -> option Key) (part : string) : option Key :=
  match lookup part key_map with
  | Some key => Some key
  | None =>
      match part with
      | String c EmptyString => Some (KeyCode c)
      | _ => key_attr part
      end
  end.

(** The loop over the parts; an unknown part ends it with [None]. *)
Fixpoint parse_parts (key_attr : string -> option Key) (parts : list string)
    (combination : list Key) : option (list Key) :=
  match parts with
  | [] => Some combination
  | part :: rest =>
      match part_key key_attr part with
      | Some key => parse_parts key_attr rest (add key combination)
      | None => None
      end
  end.

(** The text that is split: lower case, blanks removed. *)
Definition normal_form (sequence_str : string) : string :=
  Py.replace (Py.lower sequence_str) " " EmptyString.

Definition _parse_hotkey (key_attr : string -> option Key)
    (sequence_str : option string) : option (list Key) :=
  match sequence_str with
  | None => None
  | Some s =>
      if negb (Py.truthy s) then None
      else
        match parse_parts key_attr (Py.split "+"%char (normal_form s)) [] with
        | Some (k :: c) => Some (k :: c)
        | _ => None
        end
  end.

(** [entry in self._pressed_map] *)
Definition noted (entry : string) (l : HotkeyListener) : bool :=
  existsb (String.eqb entry) (_pressed_map l).

(** The entry of [_pressed_map] and the combination that go with a
    signal. *)
Definition entry_of (s : HotkeySignal) : string :=
  match s with
  | toggle_visibility_triggered => "toggle"
  | screenshot_full_triggered => "screenshot"
  end.

Definition comb_of (s : HotkeySignal) (l : HotkeyListener) : option (list Key) :=
  match s with
  | toggle_visibility_triggered => toggle_hotkey_comb l
  | screenshot_full_triggered => screenshot_hotkey_comb l
  end.

End hotkey_listener.

(** ** ui/settings_dialog.py: testing a key *)

Module settings_dialog.

Import gemini_api.

(** A message box: its title and its text. *)
Definition MessageBox : Type := (string * string)%type.

(** The box that reports what [list_models] returned. *)
Definition report_models (models : list string) : MessageBox :=
  match models with
  | m :: _ =>
      if Py.startswith m "Error:" then
        ("API Key Test Failed",
         "Could not list models using this key." ++ Py.nl ++ "Error: " ++ m)
      else
        ("API Key Test Successful",
         "Successfully connected and found models (e.g., " ++ m ++ ")."
         ++ Py.nl ++ "Remember to save the settings.")
  | [] =>
      ("API Key Test Failed",
       "Could not list models using this key." ++ Py.nl
       ++ "Error: Unknown error listing models")
  end.

(** The [finally] block: the flag that [test_api_key] leaves. *)
Definition restore (env : Provider) (original_key : option string)
    (original_configured_state : bool) : bool :=
  match original_key with
  | Some k =>
      if Py.truthy k then
        match configure env k with
        | Return _ => original_configured_state
        | Raise _ => false
        end
      else false
  | None => false
  end.

(** [SettingsDialog.test_api_key] for the text [temp_key] of the input
    field: the box it shows and the new value of
    [gemini_api._genai_configured]. *)
Definition test_api_key (env : Provider) (cfg : Config) (flag : bool)
    (temp_key : string) : MessageBox * bool :=
  if negb (Py.truthy temp_key) then
    (("Test API Key", "Please enter an API key to test."), flag)
  else
    let original_configured_state := flag in
    let original_key := api_key cfg in
    let box :=
      match configure env temp_key with
      | Raise config_e =>
          ("API Key Test Failed",
           "Failed to configure API client: " ++ exn_msg config_e)
      | Return _ => report_models (fst (list_models env cfg flag))
      end in
    (box, restore env original_key original_configured_state).

End settings_dialog.

(** ** Concrete inputs *)

Module Scenarios.

Import gemini_api db_manager main_window.

(** A library that answers every query with the given response. *)
Definition answering (response : Response) : Provider :=
  mkProvider (fun _ => Return tt) (Return []) (fun _ _ => Return response).

(** A library whose call raises the given exception. *)
Definition raising (e : PyExn) : Provider :=
  mkProvider (fun _ => Return tt) (Return []) (fun _ _ => Raise e).

(** A library that lists the given models. *)
Definition listing (models : PyResult (list ModelInfo)) : Provider :=
  mkProvider (fun _ => Return tt) models
    (fun _ _ => Raise (mkExn (OtherException "RuntimeError") "unused")).

Definition default_config : Config :=
  mkConfig (Some "key") (Some "gemini-1.0-pro,gemini-1.5-flash-latest").

(** The greeting of the specification: two content parts, a normal end. *)
Definition greeting : Response :=
  mkResponse [mkPart "Hi"; mkPart " there"] None
    [mkCandidate FinishReason.STOP []].



(** Content parts cut at the length limit. *)
Definition truncated_with_parts : Response :=
  mkResponse [mkPart "Once upon a"] None
    [mkCandidate FinishReason.MAX_TOKENS []].

(** No content parts, the length limit as finish reason. *)
Definition truncated_without_parts : Response :=
  mkResponse [] None [mkCandidate FinishReason.MAX_TOKENS []].

(** No content parts, generation stopped for safety. *)
Definition stopped_for_safety : Response :=
  mkResponse [] None
    [mkCandidate FinishReason.SAFETY [mkRating "HARM_CATEGORY_HATE_SPEECH" "MEDIUM"]].

Definition permission_denied : PyExn :=
  mkExn PermissionDenied "403 API key not valid. Please pass a valid API key.".

Definition connection_error : PyExn :=
  mkExn RequestException "Connection refused".

(** One model that embeds only: none supports content generation. *)
Definition embedding_only : list ModelInfo :=
  [mkModel "models/embedding-001" ["embedContent"]].

(** The schedule of one request that nothing interrupts: the text is
    typed and sent, the worker runs to its end, and the UI thread handles
    the two queued signals. *)
Definition one_request (text : string) : list Event :=
  [Edit text; Send None 1; Tick 0; Tick 0; Tick 0; Deliver None 2; Deliver None 3].

(** Three rows inserted at the clock readings 10, 20 and 30. *)
Definition three_rows : Db :=
  mkDb [mkRow 1 10 "user" "a" None;
        mkRow 2 20 "model" "b" (Some "model-a");
        mkRow 3 30 "user" "c" None] 3.

(** The appends that build [three_rows], and a locked database. *)
Definition three_appends : list Append :=
  [mkAppend 10 "user" "a" None;
   mkAppend 20 "model" "b" (Some "model-a");
   mkAppend 30 "user" "c" None].

Definition database_locked : PyExn := mkExn SqliteError "database is locked".

(** A window whose input line holds blanks only. *)
Definition blank_app : App :=
  with_window (initial_app (Some "model-a") true)
    (set_input "   " (initial_window (Some "model-a"))).

(** A first request is sent and its worker passes the first test; then a
    second request is sent, which stops the first worker. *)
Definition supersede : list Event :=
  [Edit "first"; Send None 1; Tick 0; Edit "second"; Send None 2].

Definition superseded_app : App :=
  Eval vm_compute in
  match run (answering greeting) default_config supersede
          (initial_app (Some "model-a") true) with
  | Return app => app
  | Raise _ => initial_app None false
  end.

(** Both workers run to their end and the UI thread handles every queued
    signal. *)
Definition drain : list Event :=
  [Tick 0; Tick 0; Tick 1; Tick 1; Tick 1;
   Deliver None 3; Deliver None 4; Deliver None 5; Deliver None 6].

Definition drained_app : App :=
  Eval vm_compute in
  match run (answering greeting) default_config drain superseded_app with
  | Return app => app
  | Raise _ => initial_app None false
  end.

(** The text that [send_query] returns for [connection_error]. *)
Definition network_error_text : string :=
  "Network Error: Could not connect to API. Check your internet connection. Details: Connection refused".

(** Three listed models: two of the Gemini family, one that is not. *)
Definition mixed_models : list ModelInfo :=
  [mkModel "models/gemini-pro" ["generateContent"; "countTokens"];
   mkModel "models/aqa" ["generateContent"];
   mkModel "models/gemini-1.5-flash" ["generateContent"]].

(** A window whose input line holds a prompt between blanks. *)
Definition typed_app : App :=
  with_window (initial_app (Some "model-a") true)
    (set_input "  Hello " (initial_window (Some "model-a"))).

(** The same prompt with the placeholder of a failed model list selected,
    and with no model selected and no key stored. *)
Definition placeholder_app : App :=
  with_window (initial_app (Some "Error: No suitable Gemini models found") true)
    (set_input "Hello" (initial_window (Some "Error: No suitable Gemini models found"))).

Definition unconfigured_app : App :=
  with_window (initial_app (Some "model-a") false)
    (set_input "Hello" (initial_window (Some "model-a"))).

(** The state just before the second request of [supersede] is sent. *)
Definition before_supersede : App :=
  Eval vm_compute in
  match run (answering greeting) default_config
          [Edit "first"; Send None 1; Tick 0; Edit "second"]
          (initial_app (Some "model-a") true) with
  | Return app => app
  | Raise _ => initial_app None false
  end.

End Scenarios.

(** * Properties *)

Import gemini_api db_manager main_window.

(** ** The model on small inputs *)

Example strip_example : Py.strip "  a b  " = "a b".
Proof. reflexivity. Qed.

Example replace_example :
  Py.replace "models/gemini-models/x" "models/" EmptyString = "gemini-x".
Proof. reflexivity. Qed.

Example split_example :
  Py.split ","%char "a,,b," = ["a"; EmptyString; "b"; EmptyString].
Proof. reflexivity. Qed.

Example sorted_example :
  Py.sorted ["b"; "a"; "B"; "ab"] = ["B"; "a"; "ab"; "b"].
Proof. reflexivity. Qed.

Example get_history_example :
  get_history None 2 Scenarios.three_rows
  = Return [(20%Z, "model", "b", Some "model-a"); (30%Z, "user", "c", None)].
Proof. reflexivity. Qed.

(** A negative limit puts no bound on the number of rows. *)
Example get_history_negative_limit :
  get_history None (-1) Scenarios.three_rows
  = Return [(10%Z, "user", "a", None); (20%Z, "model", "b", Some "model-a");
            (30%Z, "user", "c", None)].
Proof. reflexivity. Qed.

(** The greeting of the specification: the history gains the user record
    and the model record. *)
Example greeting_request :
  exists app,
    run (Scenarios.answering Scenarios.greeting) Scenarios.default_config
      (Scenarios.one_request "Hello") (initial_app (Some "model-a") true)
    = Return app
    /\ map record_of (messages (db app))
       = [(1%Z, "user", "Hello", None); (2%Z, "model", "Hi there", Some "model-a")].
Proof. eexists. split; [vm_compute; reflexivity | reflexivity]. Qed.

(** ** Strings *)

Section StringFacts.

Lemma append_empty_r (s : string) : s ++ EmptyString = s.
Proof. induction s as [|c s IH]; simpl; [reflexivity | now rewrite IH]. Qed.

(** Joining with the empty separator is plain concatenation, left to
    right. *)
Lemma join_empty_concat (l : list string) :
  Py.join EmptyString l = fold_right String.append EmptyString l.
Proof.
  unfold Py.join.
  induction l as [|x [|y t] IH]; simpl in *.
  - reflexivity.
  - now rewrite append_empty_r.
  - now rewrite <- IH.
Qed.

Lemma endswith_append (t m : string) : Py.endswith (t ++ m) m = true.
Proof.
  induction t as [|c t IH]; simpl.
  - destruct m; simpl; rewrite ?String.eqb_refl, ?Ascii.eqb_refl; reflexivity.
  - rewrite IH. apply orb_true_r.
Qed.

(** A string strips to the empty string exactly when all its characters
    are white space. *)
Lemma lstrip_whitespace_only (s : string) :
  whitespace_only s = true -> Py.lstrip s = EmptyString.
Proof.
  induction s as [|c s IH]; simpl; [reflexivity|].
  intros H. apply andb_true_iff in H as [Hc Hs]. rewrite Hc. auto.
Qed.

Lemma strip_whitespace_only (s : string) :
  whitespace_only s = true -> Py.strip s = EmptyString.
Proof. intros H. unfold Py.strip. now rewrite (lstrip_whitespace_only s H). Qed.

Lemma lstrip_head (s : string) :
  match Py.lstrip s with
  | EmptyString => whitespace_only s = true
  | String c _ => Py.isspace c = false
  end.
Proof.
  induction s as [|c s IH]; simpl; [reflexivity|].
  destruct (Py.isspace c) eqn:Hc; simpl; [exact IH | now rewrite Hc].
Qed.

Lemma rstrip_empty (s : string) :
  Py.rstrip s = EmptyString -> whitespace_only s = true.
Proof.
  induction s as [|c s IH]; simpl; [reflexivity|].
  destruct (Py.rstrip s) eqn:Hr; [|discriminate].
  destruct (Py.isspace c); [intros _; now apply IH | discriminate].
Qed.

Lemma strip_empty_iff (s : string) :
  Py.strip s = EmptyString <-> whitespace_only s = true.
Proof.
  split; [|apply strip_whitespace_only].
  unfold Py.strip. intros H. apply rstrip_empty in H.
  pose proof (lstrip_head s) as Hh.
  destruct (Py.lstrip s) as [|c r]; [exact Hh|].
  simpl in H. rewrite Hh in H. discriminate.
Qed.

End StringFacts.

(** ** Sorting *)

Section Sorting.

Lemma str_le_total (a b : string) : str_le a b \/ str_le b a.
Proof. apply String.leb_total. Qed.

Lemma insert_sorted_perm (x : string) (l : list string) :
  Permutation (x :: l) (Py.insert_sorted x l).
Proof.
  induction l as [|y t IH]; simpl; [reflexivity|].
  destruct (String.leb x y); [reflexivity|].
  rewrite perm_swap. now constructor.
Qed.

Lemma sorted_perm (l : list string) : Permutation l (Py.sorted l).
Proof.
  induction l as [|x t IH]; simpl; [constructor|].
  rewrite <- insert_sorted_perm. now constructor.
Qed.

Lemma insert_sorted_hd (a x : string) (l : list string) :
  str_le a x -> HdRel str_le a l -> HdRel str_le a (Py.insert_sorted x l).
Proof.
  intros Hax Hl. destruct l as [|y t]; simpl; [now constructor|].
  destruct (String.leb x y); constructor; [exact Hax|].
  now inversion Hl.
Qed.

Lemma insert_sorted_Sorted (x : string) (l : list string) :
  Sorted str_le l -> Sorted str_le (Py.insert_sorted x l).
Proof.
  induction 1 as [|y t Ht IH Hhd]; simpl.
  - repeat constructor.
  - destruct (String.leb x y) eqn:Hxy.
    + constructor; [now constructor | now constructor].
    + constructor; [exact IH|].
      apply insert_sorted_hd; [|exact Hhd].
      destruct (str_le_total x y) as [H|H]; [unfold str_le in H; congruence | exact H].
Qed.

Lemma sorted_Sorted (l : list string) : Sorted str_le (Py.sorted l).
Proof.
  induction l as [|x t IH]; simpl; [constructor | now apply insert_sorted_Sorted].
Qed.

End Sorting.

(** ** The provider client *)

Section ProviderClient.

Variables (env : Provider) (cfg : Config).

Lemma ensure_configured_flag (flag ok flag' : bool) :
  ensure_configured env cfg flag = (ok, flag') -> ok = flag'.
Proof.
  unfold ensure_configured, configure_genai.
  destruct flag; [now intros [= <- <-]|].
  destruct (api_key cfg) as [k|]; [|now intros [= <- <-]].
  destruct (negb (Py.truthy k)); [now intros [= <- <-]|].
  destruct (configure env k); now intros [= <- <-].
Qed.

(** What [send_query] does once the guard is passed and the library has
    returned a response. *)
Lemma send_query_response (flag flag' : bool) (prompt model : string)
    (response : Response) (s : string) :
  ensure_configured env cfg flag = (true, flag') ->
  generate_content env model prompt = Return response ->
  read_response response = Return s ->
  send_query env cfg flag prompt model = (Return s, flag').
Proof.
  intros Hc Hg Hr. unfold send_query. rewrite Hc, Hg, Hr. reflexivity.
Qed.

(** The handlers of [send_query] for an exception that is no
    [RequestException]: the search stops at the first clause that names
    [google]. *)
Lemma handle_other_exception (e : PyExn) (flag : bool) :
  Py.is_class RequestException e = false ->
  handle send_query_clauses e flag = (Raise (name_error "google"), flag).
Proof.
  intros H. unfold send_query_clauses, handle.
  change (name_bound (clause_root (mkClause "requests" (Py.is_class RequestException)
            (fun e flag => ("Network Error: Could not connect to API. Check your internet connection. Details: " ++ exn_msg e, flag)))))
    with true.
  cbn [negb clause_matches]. rewrite H. reflexivity.
Qed.

Lemma handle_request_exception (e : PyExn) (flag : bool) :
  Py.is_class RequestException e = true ->
  handle send_query_clauses e flag
  = (Return ("Network Error: Could not connect to API. Check your internet connection. Details: "
             ++ exn_msg e), flag).
Proof.
  intros H. unfold send_query_clauses, handle.
  change (name_bound (clause_root (mkClause "requests" (Py.is_class RequestException)
            (fun e flag => ("Network Error: Could not connect to API. Check your internet connection. Details: " ++ exn_msg e, flag)))))
    with true.
  cbn [negb clause_matches clause_handler]. rewrite H. reflexivity.
Qed.

End ProviderClient.

(** C1. When the client is configured and the response of the provider has
    content parts, [send_query] returns the texts of the parts, concatenated
    in their order, as its result; the flag stays set. *)
Theorem send_query_concatenates_parts :
  forall env cfg flag flag' prompt model response,
    ensure_configured env cfg flag = (true, flag') ->
    generate_content env model prompt = Return response ->
    parts response <> [] ->
    send_query env cfg flag prompt model
    = (Return (fold_right String.append EmptyString
                 (map part_text (parts response))), flag')
    /\ flag' = true.
Proof.
  intros env cfg flag flag' prompt model response Hc Hg Hp.
  split; [|symmetry; exact (ensure_configured_flag env cfg _ _ _ Hc)].
  apply send_query_response with (response := response); auto.
  unfold read_response. destruct (parts response) as [|p ps] eqn:E; [contradiction|].
  now rewrite join_empty_concat.
Qed.

Lemma send_query_concatenates_parts_witness :
  send_query (Scenarios.answering Scenarios.greeting)
    Scenarios.default_config true "Hello" "model-a"
  = (Return "Hi there", true) /\ true = true.
Proof.
  apply (send_query_concatenates_parts
           (Scenarios.answering Scenarios.greeting)
           Scenarios.default_config true true "Hello" "model-a"
           Scenarios.greeting).
  - reflexivity.
  - reflexivity.
  - discriminate.
Defined.




(** C4 on the code.  When the library raises a permission error, the search
    for a handler passes the clause for [RequestException] and evaluates
    [google.api_core.exceptions.PermissionDenied]; the name [google] is not
    bound in the module, so [send_query] raises [NameError] and leaves
    [_genai_configured] set. *)
Theorem send_query_permission_denied :
  forall configure fetch cfg prompt model msg,
    send_query
      (mkProvider configure fetch (fun _ _ => Raise (mkExn PermissionDenied msg)))
      cfg true prompt model
    = (Raise (name_error "google"), true).
Proof. reflexivity. Qed.

(** C6 on the code.  Take a response whose first candidate carries an
    abnormal finish reason.  When the reason is [MAX_TOKENS] and the
    response has content parts, [send_query] returns the texts of the parts
    as they are: line 95 answers before the finish reason is looked at.
    When the reason is [MAX_TOKENS] and the response has neither content
    parts nor block reason, line 114 reads [response.text], which raises
    [ValueError] because there are no parts, and the search for a handler
    raises [NameError] for the name [google]: the truncation marker is
    never appended.  For the other reasons, a response without content
    parts and block reason gives the stopped message, built from the reason
    and the safety ratings of the candidate alone. *)
Theorem send_query_length_limit_never_marked :
  forall env cfg flag flag' prompt model response c rest,
    ensure_configured env cfg flag = (true, flag') ->
    generate_content env model prompt = Return response ->
    candidates response = c :: rest ->
    (finish_reason c = FinishReason.MAX_TOKENS ->
     parts response <> [] ->
     send_query env cfg flag prompt model
     = (Return (Py.join EmptyString (map part_text (parts response))), flag'))
    /\ (finish_reason c = FinishReason.MAX_TOKENS ->
        parts response = [] ->
        blocking_feedback response = None ->
        send_query env cfg flag prompt model = (Raise (name_error "google"), flag'))
    /\ (finish_reason c <> FinishReason.STOP ->
        finish_reason c <> FinishReason.MAX_TOKENS ->
        parts response = [] ->
        blocking_feedback response = None ->
        send_query env cfg flag prompt model = (Return (stopped_message c), flag')).
Proof.
  intros env cfg flag flag' prompt model response c rest Hc Hg Hcs.
  split; [|split].
  - intros _ Hp.
    apply send_query_response with (response := response); auto.
    unfold read_response.
    destruct (parts response) as [|p ps]; [contradiction | reflexivity].
  - intros Hf Hp Hb.
    unfold send_query. rewrite Hc, Hg. cbn [negb].
    unfold read_response, text. rewrite Hp, Hb, Hcs, Hf.
    cbn [negb FinishReason.eqb FinishReason.name].
    change (String.eqb "MAX_TOKENS" "MAX_TOKENS") with true. cbn iota.
    now apply handle_other_exception.
  - intros Hs Hm Hp Hb.
    apply send_query_response with (response := response); auto.
    unfold read_response. rewrite Hp, Hb, Hcs.
    destruct (finish_reason c); try reflexivity; contradiction.
Qed.

Lemma send_query_length_limit_never_marked_witness :
  (send_query (Scenarios.answering Scenarios.truncated_with_parts)
     Scenarios.default_config true "Hello" "model-a"
   = (Return "Once upon a", true)
   /\ Py.endswith "Once upon a" truncation_marker = false)
  /\ send_query (Scenarios.answering Scenarios.truncated_without_parts)
       Scenarios.default_config true "Hello" "model-a"
     = (Raise (name_error "google"), true)
  /\ send_query (Scenarios.answering Scenarios.stopped_for_safety)
       Scenarios.default_config true "Hello" "model-a"
     = (Return "Error: Response generation stopped due to SAFETY (HARM_CATEGORY_HATE_SPEECH: MEDIUM).",
        true).
Proof.
  split; [split; [|reflexivity] | split].
  - apply (proj1 (send_query_length_limit_never_marked
                    (Scenarios.answering Scenarios.truncated_with_parts)
                    Scenarios.default_config true true "Hello" "model-a"
                    Scenarios.truncated_with_parts
                    (mkCandidate FinishReason.MAX_TOKENS []) []
                    eq_refl eq_refl eq_refl));
      [reflexivity | discriminate].
  - apply (proj1 (proj2 (send_query_length_limit_never_marked
                    (Scenarios.answering Scenarios.truncated_without_parts)
                    Scenarios.default_config true true "Hello" "model-a"
                    Scenarios.truncated_without_parts
                    (mkCandidate FinishReason.MAX_TOKENS []) []
                    eq_refl eq_refl eq_refl)));
      reflexivity.
  - apply (proj2 (proj2 (send_query_length_limit_never_marked
                    (Scenarios.answering Scenarios.stopped_for_safety)
                    Scenarios.default_config true true "Hello" "model-a"
                    Scenarios.stopped_for_safety
                    (mkCandidate FinishReason.SAFETY
                       [mkRating "HARM_CATEGORY_HATE_SPEECH" "MEDIUM"]) []
                    eq_refl eq_refl eq_refl)));
      first [discriminate | reflexivity].
Defined.

(** ** The list of models *)

Lemma split_nonempty (sep : ascii) (s : string) : Py.split sep s <> [].
Proof.
  destruct s as [|c r]; simpl; [discriminate|].
  destruct (Ascii.eqb c sep); [discriminate|].
  destruct (Py.split sep r); discriminate.
Qed.

Lemma fallback_models_cases (cfg : Config) :
  (exists s, available_models cfg = Some s /\ s <> EmptyString
             /\ fallback_models cfg = Py.split ","%char s)
  \/ (setting_truthy (available_models cfg) = false
      /\ fallback_models cfg = hardcoded_fallback).
Proof.
  unfold fallback_models, setting_truthy.
  destruct (available_models cfg) as [s|]; [|now right].
  destruct s as [|c r]; [now right|].
  left. exists (String c r). repeat split; [discriminate|].
  simpl Py.truthy. cbv iota.
  pose proof (split_nonempty ","%char (String c r)) as Hne.
  destruct (Py.split ","%char (String c r)); [contradiction | reflexivity].
Qed.

(** C7, as stated, fails: after a successful fetch in which no model
    supports content generation, the sorted filtered list is empty and
    [list_models] returns a placeholder instead. *)
Lemma list_models_counterexample :
  fetch_models (Scenarios.listing (Return Scenarios.embedding_only))
  = Return Scenarios.embedding_only
  /\ Py.sorted (map gemini_api.model_name
                  (filter supports_generation Scenarios.embedding_only)) = []
  /\ list_models (Scenarios.listing (Return Scenarios.embedding_only))
       Scenarios.default_config true
     = (["Error: No suitable Gemini models found"], true).
Proof. repeat split. Qed.

(** C7, amended.  [list_models] never returns the empty list.  It returns
    - a placeholder when the credentials cannot be configured;
    - after a successful fetch, the list [models_cache] when that is not
      empty, and a placeholder otherwise; [models_cache] is ascending and
      holds, with ['models/'] removed, the names of the models that support
      content generation and whose name starts with ['models/gemini-'];
    - after a failed fetch, the configured list, split at the commas, or
      the hardcoded default alone when the setting is empty or absent. *)
Theorem list_models_nonempty :
  forall env cfg flag,
    fst (list_models env cfg flag) <> []
    /\ ((fst (ensure_configured env cfg flag) = false
         /\ fst (list_models env cfg flag) = not_configured_models)
        \/ (fst (ensure_configured env cfg flag) = true
            /\ exists all_models,
                fetch_models env = Return all_models
                /\ Sorted str_le (models_cache all_models)
                /\ Permutation
                     (map (fun m => Py.replace (gemini_api.model_name m) "models/" EmptyString)
                        (filter suitable all_models))
                     (models_cache all_models)
                /\ ((models_cache all_models <> []
                     /\ fst (list_models env cfg flag) = models_cache all_models)
                    \/ (models_cache all_models = []
                        /\ fst (list_models env cfg flag) = no_suitable_models)))
        \/ (fst (ensure_configured env cfg flag) = true
            /\ (exists e, fetch_models env = Raise e)
            /\ ((exists s, available_models cfg = Some s /\ s <> EmptyString
                           /\ fst (list_models env cfg flag) = Py.split ","%char s)
                \/ (setting_truthy (available_models cfg) = false
                    /\ fst (list_models env cfg flag) = hardcoded_fallback)))).
Proof.
  intros env cfg flag. unfold list_models.
  destruct (ensure_configured env cfg flag) as [ok flag'] eqn:Hc.
  destruct ok; simpl negb; cbv iota.
  - destruct (fetch_models env) as [all_models|e] eqn:Hf.
    + assert (Hsp : Sorted str_le (models_cache all_models)
                    /\ Permutation
                         (map (fun m => Py.replace (gemini_api.model_name m) "models/" EmptyString)
                            (filter suitable all_models))
                         (models_cache all_models)).
      { split; [apply sorted_Sorted | apply sorted_perm]. }
      destruct (models_cache all_models) as [|m ms] eqn:Hm; simpl fst.
      * split; [discriminate|]. right; left. split; [reflexivity|].
        exists all_models. rewrite Hm in *. repeat split; try tauto.
      * split; [discriminate|]. right; left. split; [reflexivity|].
        exists all_models. rewrite Hm in *. repeat split; try tauto.
        left. split; [discriminate | reflexivity].
    + simpl fst.
      destruct (fallback_models_cases cfg) as [(s & Hs & Hne & Hfb)|(Hs & Hfb)].
      * split.
        -- rewrite Hfb. apply split_nonempty.
        -- right; right. split; [reflexivity|]. split; [now exists e|].
           left. now exists s.
      * split.
        -- rewrite Hfb. discriminate.
        -- right; right. split; [reflexivity|]. split; [now exists e|].
           now right.
  - simpl fst. split; [discriminate|]. left. now split.
Qed.

(** ** The history store *)

Section History.

Lemma insert_desc_perm (x : Row) (l : list Row) :
  Permutation (x :: l) (insert_desc x l).
Proof.
  induction l as [|y t IH]; simpl; [reflexivity|].
  destruct (timestamp y <? timestamp x)%Z; [reflexivity|].
  rewrite perm_swap. now constructor.
Qed.

Lemma order_by_perm (rows : list Row) :
  Permutation rows (order_by_timestamp_desc rows).
Proof.
  unfold order_by_timestamp_desc.
  induction rows as [|x t IH]; simpl; [constructor|].
  rewrite <- insert_desc_perm. now constructor.
Qed.

Lemma insert_desc_Sorted (x : Row) (l : list Row) :
  Sorted newer_first l -> Sorted newer_first (insert_desc x l).
Proof.
  induction 1 as [|y t Ht IH Hhd]; simpl.
  - repeat constructor.
  - destruct (timestamp y <? timestamp x)%Z eqn:E.
    + apply Z.ltb_lt in E.
      constructor; [now constructor|]. constructor. unfold newer_first. lia.
    + apply Z.ltb_ge in E. constructor; [exact IH|].
      destruct t as [|z t']; simpl.
      * constructor. exact E.
      * destruct (timestamp z <? timestamp x)%Z; constructor;
          [exact E | now inversion Hhd].
Qed.

Lemma order_by_sorted (rows : list Row) :
  StronglySorted newer_first (order_by_timestamp_desc rows).
Proof.
  apply Sorted_StronglySorted.
  - intros a b c Hab Hbc. unfold newer_first in *. lia.
  - unfold order_by_timestamp_desc.
    induction rows as [|x t IH]; simpl; [constructor | now apply insert_desc_Sorted].
Qed.

Lemma StronglySorted_app_inv {A : Type} (R : A -> A -> Prop) (l1 l2 : list A) :
  StronglySorted R (l1 ++ l2)%list ->
  StronglySorted R l1
  /\ forall a b, In a l1 -> In b l2 -> R a b.
Proof.
  induction l1 as [|x t IH]; simpl; intros H.
  - split; [constructor | intros a b []].
  - apply StronglySorted_inv in H as [Ht Hx].
    destruct (IH Ht) as [IH1 IH2]. split.
    + constructor; [exact IH1|].
      rewrite Forall_forall in *. intros y Hy. apply Hx, in_or_app. now left.
    + intros a b [<-|Ha] Hb.
      * rewrite Forall_forall in Hx. apply Hx, in_or_app. now right.
      * now apply IH2.
Qed.

Lemma StronglySorted_snoc {A : Type} (R : A -> A -> Prop) (l : list A) (x : A) :
  StronglySorted R l -> Forall (fun y => R y x) l ->
  StronglySorted R (l ++ [x])%list.
Proof.
  induction 1 as [|y t Ht IH Hy]; simpl; intros Hx.
  - repeat constructor.
  - inversion Hx as [|? ? Hyx Htx]; subst. constructor; [now apply IH|].
    apply Forall_app. split; [exact Hy | now repeat constructor].
Qed.

Lemma StronglySorted_rev {A : Type} (R : A -> A -> Prop) (l : list A) :
  StronglySorted R l -> StronglySorted (fun a b => R b a) (rev l).
Proof.
  induction 1 as [|y t Ht IH Hy]; simpl; [constructor|].
  apply StronglySorted_snoc; [exact IH|].
  rewrite Forall_forall in *. intros z Hz. apply Hy. now apply in_rev.
Qed.

(** The rows that [get_history] selects: at most [limit] of them, the most
    recent ones, the oldest first. *)
Lemma select_history_spec (limit : Z) (db : Db) :
  (0 <= limit)%Z ->
  exists older,
    List.length (select_history limit db)
    = Nat.min (Z.to_nat limit) (List.length (messages db))
    /\ Permutation (messages db) (older ++ select_history limit db)%list
    /\ (forall o r, In o older -> In r (select_history limit db) -> older_first o r)
    /\ StronglySorted older_first (select_history limit db).
Proof.
  intros Hl. unfold select_history, sql_limit.
  destruct (limit <? 0)%Z eqn:E; [apply Z.ltb_lt in E; lia|].
  set (n := Z.to_nat limit).
  set (sorted_rows := order_by_timestamp_desc (messages db)).
  pose proof (order_by_sorted (messages db)) as Hs. fold sorted_rows in Hs.
  rewrite <- (firstn_skipn n sorted_rows) in Hs.
  apply StronglySorted_app_inv in Hs as [Hfirst Hcross].
  exists (skipn n sorted_rows). repeat split.
  - rewrite length_rev, length_firstn. unfold sorted_rows.
    now rewrite <- (Permutation_length (order_by_perm (messages db))).
  - rewrite (order_by_perm (messages db)). fold sorted_rows.
    rewrite <- (firstn_skipn n sorted_rows) at 1.
    rewrite Permutation_app_comm. apply Permutation_app_head, Permutation_rev.
  - intros o r Ho Hr. apply in_rev in Hr. exact (Hcross r o Hr Ho).
  - exact (StronglySorted_rev newer_first _ Hfirst).
Qed.

Lemma is_class_sqlite (e : PyExn) :
  exn_class e = SqliteError -> Py.is_class SqliteError e = true.
Proof. unfold Py.is_class. now intros ->. Qed.

Lemma add_message_returns (fault : Fault) (now : Z) (role content : string)
    (model_used : option string) (db : Db) :
  database_fault fault ->
  exists db', add_message fault now role content model_used db = Return (tt, db').
Proof.
  intros Hf. unfold add_message, except_sqlite.
  destruct fault as [e|].
  - rewrite (is_class_sqlite e Hf). now exists db.
  - destruct (role_allowed role); simpl; eauto.
Qed.

(** With a clock that goes strictly forward, the rows in the descending
    order of their timestamps are the rows in the reverse order of their
    insertion. *)
Lemma insert_desc_oldest (x : Row) (l : list Row) :
  Forall (fun y => (timestamp x < timestamp y)%Z) l ->
  insert_desc x l = (l ++ [x])%list.
Proof.
  induction 1 as [|y t Hy Ht IH]; simpl; [reflexivity|].
  destruct (timestamp y <? timestamp x)%Z eqn:E; [apply Z.ltb_lt in E; lia|].
  now rewrite IH.
Qed.

Lemma order_by_forward_clock (rows : list Row) :
  StronglySorted (fun a b => (timestamp a < timestamp b)%Z) rows ->
  order_by_timestamp_desc rows = rev rows.
Proof.
  unfold order_by_timestamp_desc.
  induction 1 as [|x t Ht IH Hx]; simpl; [reflexivity|].
  rewrite IH. apply insert_desc_oldest.
  rewrite Forall_forall in *. intros y Hy. apply Hx. now apply in_rev.
Qed.

(** Then [get_history] selects the last [limit] rows inserted, in the
    order of their insertion. *)
Lemma select_history_forward_clock (limit : Z) (db : Db) :
  (0 <= limit)%Z ->
  StronglySorted (fun a b => (timestamp a < timestamp b)%Z) (messages db) ->
  select_history limit db
  = skipn (List.length (messages db) - Z.to_nat limit) (messages db).
Proof.
  intros Hl Hs. unfold select_history, sql_limit.
  destruct (limit <? 0)%Z eqn:E; [apply Z.ltb_lt in E; lia|].
  rewrite (order_by_forward_clock _ Hs), firstn_rev. apply rev_involutive.
Qed.

End History.

(** C8.  After any sequence of appends, [get_history(limit)] with a limit
    that is not negative returns at most [limit] records; they are the
    records of the most recent rows (every row left out is at most as
    recent as every row returned) and come oldest first.  [clear_history]
    without a database error returns [True] and empties the store, and
    after any call of [clear_history] that returned [True] the list is
    empty. *)
Theorem history_limit_recent_oldest_first :
  forall (entries : list Append) (db0 : Db) (limit : Z),
    (0 <= limit)%Z ->
    (exists rows older,
        get_history None limit (append_all entries db0)
        = Return (map record_of rows)
        /\ (Z.of_nat (List.length rows) <= limit)%Z
        /\ List.length rows
           = Nat.min (Z.to_nat limit)
               (List.length (messages (append_all entries db0)))
        /\ Permutation (messages (append_all entries db0)) (older ++ rows)%list
        /\ (forall o r, In o older -> In r rows -> older_first o r)
        /\ StronglySorted older_first rows)
    /\ clear_history None (append_all entries db0) = Return (true, empty_db)
    /\ (forall fault db',
           clear_history fault (append_all entries db0) = Return (true, db') ->
           get_history None limit db' = Return []).
Proof.
  intros entries db0 limit Hl. set (db := append_all entries db0).
  split; [|split].
  - destruct (select_history_spec limit db Hl) as (older & Hlen & Hperm & Hold & Hsort).
    exists (select_history limit db), older. repeat split; auto.
    rewrite Hlen. lia.
  - reflexivity.
  - intros fault db'. unfold clear_history, except_sqlite.
    destruct fault as [e|].
    + destruct (Py.is_class SqliteError e); discriminate.
    + intros [= <-]. unfold get_history, select_history, sql_limit. simpl.
      destruct (limit <? 0)%Z; [reflexivity|]. now rewrite firstn_nil.
Qed.

Lemma history_limit_recent_oldest_first_witness :
  (0 <= 2)%Z
  /\ get_history None 2 (append_all Scenarios.three_appends empty_db)
     = Return [(20%Z, "model", "b", Some "model-a"); (30%Z, "user", "c", None)]
  /\ clear_history None (append_all Scenarios.three_appends empty_db)
     = Return (true, empty_db).
Proof.
  assert (H : (0 <= 2)%Z) by lia.
  split; [exact H|].
  destruct (history_limit_recent_oldest_first Scenarios.three_appends empty_db 2 H)
    as (_ & Hclear & _).
  split; [reflexivity | exact Hclear].
Defined.

(** C10.  When the only exceptions of the database calls are
    [sqlite3.Error]s, the three operations return to their caller: on an
    error [add_message] returns with the store as it was, [get_history]
    returns the empty list and [clear_history] returns [False] with the
    store as it was; a role that the table refuses is such an error. *)
Theorem history_store_catches_database_errors :
  forall (fault : Fault) (now limit : Z) (role content : string)
         (model_used : option string) (db : Db),
    database_fault fault ->
    (exists db', add_message fault now role content model_used db = Return (tt, db'))
    /\ (exists records, get_history fault limit db = Return records)
    /\ (exists ok db', clear_history fault db = Return (ok, db'))
    /\ (forall e, fault = Some e ->
          add_message fault now role content model_used db = Return (tt, db)
          /\ get_history fault limit db = Return []
          /\ clear_history fault db = Return (false, db))
    /\ (role_allowed role = false ->
          add_message fault now role content model_used db = Return (tt, db)).
Proof.
  intros fault now limit role content model_used db Hf.
  split; [now apply add_message_returns|].
  unfold add_message, get_history, clear_history, except_sqlite.
  destruct fault as [e|].
  - rewrite (is_class_sqlite e Hf). repeat split; eauto.
  - split; [eauto|]. split; [eauto|]. split; [now intros e [=]|].
    intros ->. reflexivity.
Qed.

Lemma history_store_catches_database_errors_witness :
  database_fault (Some Scenarios.database_locked)
  /\ add_message (Some Scenarios.database_locked) 40 "user" "d" None Scenarios.three_rows
     = Return (tt, Scenarios.three_rows)
  /\ get_history (Some Scenarios.database_locked) 100 Scenarios.three_rows = Return []
  /\ clear_history (Some Scenarios.database_locked) Scenarios.three_rows
     = Return (false, Scenarios.three_rows).
Proof.
  assert (H : database_fault (Some Scenarios.database_locked)) by reflexivity.
  split; [exact H|].
  destruct (history_store_catches_database_errors
              (Some Scenarios.database_locked) 40 100 "user" "d" None
              Scenarios.three_rows H) as (_ & _ & _ & Herr & _).
  exact (Herr Scenarios.database_locked eq_refl).
Defined.


(** ** The worker and the controller *)

Section Controller.

Variables (env : Provider) (cfg : Config).

Lemma nth_error_update_worker (f : Worker -> Worker) (l : list Worker) (m n : nat) :
  nth_error (update_worker m f l) n
  = match nth_error l n with
    | Some w => Some (if Nat.eqb m n then f w else w)
    | None => None
    end.
Proof.
  revert m n. induction l as [|x t IH]; intros m n.
  - destruct m, n; reflexivity.
  - destruct m, n; simpl; try reflexivity.
    + now destruct (nth_error t n).
    + apply IH.
Qed.

Lemma is_stopped_update (f : Worker -> Worker) (m n : nat) (app : App)
    (win : MainWindow) (flag : bool) (d : Db) (q : list (nat * Signal)) :
  keeps_stopped f ->
  is_stopped n app = true ->
  is_stopped n (mkApp win flag d (update_worker m f (workers app)) q) = true.
Proof.
  unfold is_stopped. intros Hf. simpl. rewrite nth_error_update_worker.
  destruct (nth_error (workers app) n) as [w|]; [|discriminate].
  intros Hw. apply negb_true_iff in Hw. apply negb_true_iff.
  destruct (Nat.eqb m n); [now apply Hf | exact Hw].
Qed.

Lemma is_stopped_same_workers (n : nat) (app app' : App) :
  workers app' = workers app -> is_stopped n app = true -> is_stopped n app' = true.
Proof. unfold is_stopped. now intros ->. Qed.

Lemma no_outcome_same_queue (n : nat) (app app' : App) :
  event_queue app' = event_queue app ->
  no_outcome_queued n app = true -> no_outcome_queued n app' = true.
Proof. unfold no_outcome_queued. now intros ->. Qed.

(** The signals that a stopped worker queues carry no outcome, and the
    signals of another worker are not its own. *)
Lemma no_outcome_after_emit (n m : nat) (running : bool)
    (result : PyResult string) (q : list (nat * Signal)) :
  (m = n -> running = false) ->
  forallb (fun s => negb (is_outcome n s)) q = true ->
  forallb (fun s => negb (is_outcome n s))
    (q ++ tag m (delivery running result ++ [finished]))%list = true.
Proof.
  intros Hm Hq. rewrite forallb_app, Hq. simpl.
  destruct (Nat.eq_dec m n) as [->|Hne].
  - rewrite (Hm eq_refl). reflexivity.
  - apply Nat.eqb_neq in Hne.
    destruct running; [|reflexivity].
    destruct result; simpl; now rewrite Hne.
Qed.

(** A step of any thread keeps a stopped worker stopped and queues no
    outcome of it. *)
Lemma run_step_keeps (n m : nat) (app : App) :
  is_stopped n app = true -> no_outcome_queued n app = true ->
  is_stopped n (run_step env cfg m app) = true
  /\ no_outcome_queued n (run_step env cfg m app) = true.
Proof.
  intros Hs Hq. unfold run_step.
  destruct (nth_error (workers app) m) as [wk|] eqn:Hm; [|now split].
  assert (Hflag : m = n -> _is_running wk = false).
  { intros ->. unfold is_stopped in Hs. rewrite Hm in Hs.
    now apply negb_true_iff in Hs. }
  destruct (pc wk) as [| |result|].
  - destruct (_is_running wk) eqn:Hr.
    + split; [apply is_stopped_update; [now intros w|exact Hs] | exact Hq].
    + split; [apply is_stopped_update; [now intros w|exact Hs]|].
      unfold no_outcome_queued in *. simpl.
      rewrite forallb_app, Hq. reflexivity.
  - destruct (send_query env cfg (_genai_configured app) (prompt wk) (model_name wk))
      as [result flag].
    split; [apply is_stopped_update; [now intros w|exact Hs] | exact Hq].
  - split; [apply is_stopped_update; [now intros w|exact Hs]|].
    unfold no_outcome_queued in *. simpl.
    now apply no_outcome_after_emit.
  - now split.
Qed.

(** [run_step] touches neither the window nor the history. *)
Lemma run_step_window_db (m : nat) (app : App) :
  window (run_step env cfg m app) = window app
  /\ db (run_step env cfg m app) = db app.
Proof.
  unfold run_step.
  destruct (nth_error (workers app) m) as [wk|]; [|now split].
  destruct (pc wk); [destruct (_is_running wk) | | |]; try now split.
  now destruct (send_query env cfg (_genai_configured app) (prompt wk) (model_name wk)).
Qed.

Lemma nth_error_snoc_some {A : Type} (l : list A) (x w : A) (n : nat) :
  nth_error l n = Some w -> nth_error (l ++ [x])%list n = Some w.
Proof.
  intros H. rewrite nth_error_app1; [exact H|].
  apply nth_error_Some. congruence.
Qed.

Lemma send_message_keeps (n : nat) (fault : Fault) (now : Z) (app app' : App) :
  send_message env cfg fault now app = Return app' ->
  is_stopped n app = true -> no_outcome_queued n app = true ->
  is_stopped n app' = true /\ no_outcome_queued n app' = true.
Proof.
  unfold send_message. intros H Hs Hq.
  destruct (negb (Py.truthy (Py.strip (input_area (window app))))).
  { injection H as <-. now split. }
  destruct (model_invalid (current_model (window app))).
  { injection H as <-. now split. }
  destruct (ensure_configured env cfg (_genai_configured app)) as [ok flag].
  destruct (negb ok).
  { injection H as <-. now split. }
  destruct (add_message fault now "user" _ None (db app)) as [[u db']|e];
    [|discriminate].
  injection H as <-. split; [|exact Hq].
  unfold is_stopped in *. simpl.
  destruct (nth_error (workers app) n) as [w|] eqn:Hn; [|discriminate].
  set (ws := stop_previous _ (workers app)).
  assert (Hws : exists w', nth_error ws n = Some w' /\ _is_running w' = false).
  { unfold ws, stop_previous. simpl.
    destruct (api_worker (window app)) as [k|].
    - rewrite nth_error_update_worker, Hn.
      eexists. split; [reflexivity|].
      apply negb_true_iff in Hs.
      destruct (Nat.eqb k n); [|exact Hs].
      destruct (isRunning w); [reflexivity | exact Hs].
    - exists w. split; [exact Hn | now apply negb_true_iff in Hs]. }
  destruct Hws as (w' & Hw' & Hr).
  rewrite (nth_error_snoc_some ws _ w' n Hw'). now rewrite Hr.
Qed.

(** A slot leaves the workers and the queue as they are. *)
Lemma slot_workers_queue (fault : Fault) (now : Z) (s : Signal) (app app' : App) :
  slot fault now s app = Return app' ->
  workers app' = workers app /\ event_queue app' = event_queue app.
Proof.
  destruct s as [response|error_msg|]; simpl.
  - unfold handle_response.
    destruct (is_error_text response); [intros [= <-]; now split|].
    destruct (add_message fault now "model" response _ (db app)) as [[u db']|e];
      [|discriminate].
    intros [= <-]. now split.
  - intros [= <-]. now split.
  - intros [= <-]. now split.
Qed.

Lemma deliver_keeps (n : nat) (fault : Fault) (now : Z) (app app' : App) :
  deliver fault now app = Return app' ->
  is_stopped n app = true -> no_outcome_queued n app = true ->
  is_stopped n app' = true /\ no_outcome_queued n app' = true.
Proof.
  unfold deliver. intros H Hs Hq.
  destruct (event_queue app) as [|[m s] rest] eqn:Hqueue.
  { injection H as <-. now split. }
  apply slot_workers_queue in H as [Hw He]. simpl in Hw, He. split.
  - exact (is_stopped_same_workers n app app' Hw Hs).
  - unfold no_outcome_queued in *. rewrite He. rewrite Hqueue in Hq.
    simpl in Hq. now apply andb_true_iff in Hq.
Qed.

Lemma step_keeps (n : nat) (ev : Event) (app app' : App) :
  step env cfg ev app = Return app' ->
  is_stopped n app = true -> no_outcome_queued n app = true ->
  is_stopped n app' = true /\ no_outcome_queued n app' = true.
Proof.
  destruct ev as [text|fault now|m|m|fault now]; simpl; intros H Hs Hq.
  - injection H as <-. now split.
  - exact (send_message_keeps n fault now app app' H Hs Hq).
  - injection H as <-. now apply run_step_keeps.
  - injection H as <-. split; [|exact Hq].
    apply is_stopped_update; [now intros w | exact Hs].
  - exact (deliver_keeps n fault now app app' H Hs Hq).
Qed.

Lemma run_keeps (n : nat) (evs : list Event) :
  forall app app',
    run env cfg evs app = Return app' ->
    is_stopped n app = true -> no_outcome_queued n app = true ->
    is_stopped n app' = true /\ no_outcome_queued n app' = true.
Proof.
  induction evs as [|ev rest IH]; simpl; intros app app' H Hs Hq.
  - injection H as <-. now split.
  - destruct (step env cfg ev app) as [app1|e] eqn:Hstep; [|discriminate].
    destruct (step_keeps n ev app app1 Hstep Hs Hq) as [Hs1 Hq1].
    exact (IH app1 app' H Hs1 Hq1).
Qed.

(** The slot of [finished] changes neither the transcript nor the
    history. *)
Lemma on_worker_finished_transcript (app : App) :
  chat_display (window (on_worker_finished app)) = chat_display (window app)
  /\ db (on_worker_finished app) = db app.
Proof.
  unfold on_worker_finished. simpl.
  now destruct (contains "Error" (status_label (window app))).
Qed.

End Controller.

(** C5.  Take a worker whose flag has been cleared while no outcome of it
    is queued, that is, before its thread reaches the test that precedes
    the emission.  Whatever happens next, the flag stays cleared and no
    signal with its outcome ever reaches the queue of the UI thread; the
    steps of its thread change neither the window nor the history, and the
    handling of a signal of this worker changes neither the transcript nor
    the history. *)
Theorem stopped_worker_outcome_never_delivered :
  forall env cfg n app evs app',
    is_stopped n app = true ->
    no_outcome_queued n app = true ->
    run env cfg evs app = Return app' ->
    is_stopped n app' = true
    /\ no_outcome_queued n app' = true
    /\ window (run_step env cfg n app') = window app'
    /\ db (run_step env cfg n app') = db app'
    /\ (forall fault now s rest,
          event_queue app' = (n, s) :: rest ->
          exists app'',
            deliver fault now app' = Return app''
            /\ chat_display (window app'') = chat_display (window app')
            /\ db app'' = db app').
Proof.
  intros env cfg n app evs app' Hs Hq Hrun.
  destruct (run_keeps env cfg n evs app app' Hrun Hs Hq) as [Hs' Hq'].
  destruct (run_step_window_db env cfg n app') as [Hw Hd].
  repeat split; auto.
  intros fault now s rest Hqueue.
  unfold no_outcome_queued in Hq'. rewrite Hqueue in Hq'. simpl in Hq'.
  apply andb_true_iff in Hq' as [Hhead _].
  unfold deliver. rewrite Hqueue.
  destruct s as [response|error_msg|]; simpl in Hhead;
    rewrite ?Nat.eqb_refl in Hhead; try discriminate.
  eexists. split; [reflexivity|].
  exact (on_worker_finished_transcript
           (mkApp (window app') (_genai_configured app') (db app') (workers app') rest)).
Qed.

Lemma stopped_worker_outcome_never_delivered_witness :
  is_stopped 0 Scenarios.superseded_app = true
  /\ no_outcome_queued 0 Scenarios.superseded_app = true
  /\ run (Scenarios.answering Scenarios.greeting) Scenarios.default_config
       Scenarios.drain Scenarios.superseded_app
     = Return Scenarios.drained_app
  /\ is_stopped 0 Scenarios.drained_app = true
  /\ no_outcome_queued 0 Scenarios.drained_app = true.
Proof.
  assert (H1 : is_stopped 0 Scenarios.superseded_app = true) by reflexivity.
  assert (H2 : no_outcome_queued 0 Scenarios.superseded_app = true) by reflexivity.
  assert (H3 : run (Scenarios.answering Scenarios.greeting) Scenarios.default_config
                 Scenarios.drain Scenarios.superseded_app
               = Return Scenarios.drained_app) by (vm_compute; reflexivity).
  destruct (stopped_worker_outcome_never_delivered
              (Scenarios.answering Scenarios.greeting) Scenarios.default_config
              0 Scenarios.superseded_app Scenarios.drain Scenarios.drained_app
              H1 H2 H3) as (Hs & Hq & _).
  repeat split; assumption.
Defined.

(** A call of [send_message] that passes the validation stops the worker
    it replaces when that worker is still running. *)
Lemma send_message_stops_running_worker :
  forall env cfg fault now app app' n wk,
    send_message env cfg fault now app = Return app' ->
    api_worker (window app) = Some n ->
    nth_error (workers app) n = Some wk ->
    isRunning wk = true ->
    api_worker (window app') <> Some n ->
    is_stopped n app' = true.
Proof.
  intros env cfg fault now app app' n wk H Hn Hwk Hrun Hnew.
  unfold send_message in H.
  destruct (negb (Py.truthy (Py.strip (input_area (window app))))).
  { injection H as <-. contradiction. }
  destruct (model_invalid (current_model (window app))).
  { injection H as <-. simpl in Hnew. contradiction. }
  destruct (ensure_configured env cfg (_genai_configured app)) as [ok flag].
  destruct (negb ok).
  { injection H as <-. simpl in Hnew.
    unfold show_api_key_warning_once in Hnew.
    destruct (setting_truthy (api_key cfg)); simpl in Hnew; contradiction. }
  destruct (add_message fault now "user" _ None (db app)) as [[u db']|e];
    [|discriminate].
  injection H as <-. unfold is_stopped. simpl. rewrite Hn. simpl.
  rewrite nth_error_app1.
  - rewrite nth_error_update_worker, Hwk, Nat.eqb_refl, Hrun. reflexivity.
  - apply nth_error_Some. rewrite nth_error_update_worker, Hwk. discriminate.
Qed.

(** C9.  When the input line is empty or holds white space only,
    [send_message] returns at once and the whole state is as before: no
    worker is created or stopped, the history and the transcript are
    untouched and the input controls stay enabled. *)
Theorem send_message_ignores_blank_prompt :
  forall env cfg fault now app,
    Py.whitespace_only (input_area (window app)) = true ->
    send_message env cfg fault now app = Return app.
Proof.
  intros env cfg fault now app H. unfold send_message.
  now rewrite (strip_whitespace_only _ H).
Qed.

Lemma send_message_ignores_blank_prompt_witness :
  Py.whitespace_only (input_area (window Scenarios.blank_app)) = true
  /\ send_message (Scenarios.answering Scenarios.greeting) Scenarios.default_config
       None 1 Scenarios.blank_app
     = Return Scenarios.blank_app.
Proof.
  assert (H : Py.whitespace_only (input_area (window Scenarios.blank_app)) = true)
    by reflexivity.
  split; [exact H|].
  exact (send_message_ignores_blank_prompt
           (Scenarios.answering Scenarios.greeting) Scenarios.default_config
           None 1 Scenarios.blank_app H).
Defined.

(** A text that [handle_response] takes for an error, and the message of
    [error_occurred], are shown with the role [error] and leave the history
    as it is. *)
Lemma error_text_shown_not_persisted :
  forall fault now text app,
    is_error_text text = true ->
    handle_response fault now text app = Return (handle_api_error text app)
    /\ db (handle_api_error text app) = db app
    /\ chat_display (window (handle_api_error text app))
       = (chat_display (window app) ++ [mkDisplay "error" text None])%list.
Proof.
  intros fault now text app H. unfold handle_response. rewrite H. now repeat split.
Qed.

(** The texts of [send_query] that start with ["Error:"]. *)
Lemma send_query_error_texts :
  (forall fb, is_error_text (blocked_message fb) = true)
  /\ (forall c, is_error_text (stopped_message c) = true)
  /\ is_error_text empty_response_message = true
  /\ is_error_text not_configured_message = true.
Proof. repeat split. Qed.

(** C3 on the code.  When the library raises a network error, [send_query]
    returns a text that starts with ["Network Error:"]; [handle_response]
    tests for ["Error:"] and ["Blocked:"] only, so the text is shown with
    the role [model] and written to the history as a [model] record. *)
Theorem network_failure_persisted_as_model_record :
  send_query (Scenarios.raising Scenarios.connection_error)
    Scenarios.default_config true "Hello" "model-a"
  = (Return Scenarios.network_error_text, true)
  /\ is_error_text Scenarios.network_error_text = false
  /\ exists app,
      run (Scenarios.raising Scenarios.connection_error) Scenarios.default_config
        (Scenarios.one_request "Hello") (initial_app (Some "model-a") true)
      = Return app
      /\ map record_of (messages (db app))
         = [(1%Z, "user", "Hello", None);
            (2%Z, "model", Scenarios.network_error_text, Some "model-a")]
      /\ map display_role (chat_display (window app)) = ["user"; "model"].
Proof.
  split; [reflexivity|]. split; [reflexivity|].
  eexists. split; [vm_compute; reflexivity|]. split; reflexivity.
Qed.

(** * Further properties of the provider client *)

Section ProviderClientMore.

Variables (env : Provider) (cfg : Config).

End ProviderClientMore.

(** X1.  Whatever exception the call of the library raises, unless it is a
    [RequestException], [send_query] raises [NameError] for the name
    [google] and leaves [_genai_configured] as the guard left it: the
    texts for a refused key, an exhausted quota and an unexpected error are
    never returned. *)
Theorem send_query_other_exception_name_error :
  forall env cfg flag flag' prompt model e,
    ensure_configured env cfg flag = (true, flag') ->
    generate_content env model prompt = Raise e ->
    Py.is_class RequestException e = false ->
    send_query env cfg flag prompt model = (Raise (name_error "google"), flag').
Proof.
  intros env cfg flag flag' prompt model e Hc Hg He.
  unfold send_query. rewrite Hc, Hg. cbn [negb].
  now apply handle_other_exception.
Qed.

Lemma send_query_other_exception_name_error_witness :
  send_query
    (Scenarios.raising (mkExn ResourceExhausted "429 quota exceeded"))
    Scenarios.default_config true "Hello" "model-a"
  = (Raise (name_error "google"), true).
Proof.
  apply (send_query_other_exception_name_error
           (Scenarios.raising (mkExn ResourceExhausted "429 quota exceeded"))
           Scenarios.default_config true true "Hello" "model-a"
           (mkExn ResourceExhausted "429 quota exceeded"));
    reflexivity.
Defined.

(** X2.  A response without content parts and without block reason whose
    finish reason is [MAX_TOKENS] and whose text cannot be read makes
    [send_query] raise [NameError] as well, when the exception of the
    accessor is no [RequestException]. *)
Theorem send_query_unreadable_truncated_text :
  forall env cfg flag flag' prompt model response c rest e,
    ensure_configured env cfg flag = (true, flag') ->
    generate_content env model prompt = Return response ->
    parts response = [] ->
    blocking_feedback response = None ->
    candidates response = c :: rest ->
    finish_reason c = FinishReason.MAX_TOKENS ->
    text response = Raise e ->
    Py.is_class RequestException e = false ->
    send_query env cfg flag prompt model = (Raise (name_error "google"), flag').
Proof.
  intros env cfg flag flag' prompt model response c rest e
         Hc Hg Hp Hb Hcs Hf Ht He.
  unfold send_query. rewrite Hc, Hg. cbn [negb].
  unfold read_response. rewrite Hp, Hb, Hcs, Hf, Ht. cbn.
  now apply handle_other_exception.
Qed.

Lemma send_query_unreadable_truncated_text_witness :
  send_query
    (Scenarios.answering
       (mkResponse [] None [mkCandidate FinishReason.MAX_TOKENS []]))
    Scenarios.default_config true "Hello" "model-a"
  = (Raise (name_error "google"), true).
Proof.
  apply (send_query_unreadable_truncated_text
           (Scenarios.answering
              (mkResponse [] None [mkCandidate FinishReason.MAX_TOKENS []]))
           Scenarios.default_config true true "Hello" "model-a"
           (mkResponse [] None [mkCandidate FinishReason.MAX_TOKENS []])
           (mkCandidate FinishReason.MAX_TOKENS []) []
           no_parts_error);
    reflexivity.
Defined.

(** X3.  When the call of the library raises a [RequestException],
    [send_query] returns the network error text with the message of the
    exception, and [handle_response] does not take that text for an
    error. *)
Theorem send_query_network_error_text :
  forall env cfg flag flag' prompt model e,
    ensure_configured env cfg flag = (true, flag') ->
    generate_content env model prompt = Raise e ->
    Py.is_class RequestException e = true ->
    send_query env cfg flag prompt model
    = (Return ("Network Error: Could not connect to API. Check your internet connection. Details: "
               ++ exn_msg e), flag')
    /\ is_error_text
         ("Network Error: Could not connect to API. Check your internet connection. Details: "
          ++ exn_msg e) = false.
Proof.
  intros env cfg flag flag' prompt model e Hc Hg He. split; [|reflexivity].
  unfold send_query. rewrite Hc, Hg. cbn [negb].
  now apply handle_request_exception.
Qed.

Lemma send_query_network_error_text_witness :
  send_query (Scenarios.raising Scenarios.connection_error)
    Scenarios.default_config true "Hello" "model-a"
  = (Return Scenarios.network_error_text, true)
  /\ is_error_text Scenarios.network_error_text = false.
Proof.
  apply (send_query_network_error_text
           (Scenarios.raising Scenarios.connection_error)
           Scenarios.default_config true true "Hello" "model-a"
           Scenarios.connection_error);
    reflexivity.
Defined.

(** What the [if]/[elif] chain raises is what the accessor [text]
    raised. *)
Lemma read_response_raise (response : Response) (e : PyExn) :
  read_response response = Raise e -> text response = Raise e.
Proof.
  unfold read_response.
  destruct (parts response); [|discriminate].
  destruct (blocking_feedback response); [discriminate|].
  destruct (candidates response) as [|c rest]; [discriminate|].
  destruct (negb _); [|discriminate].
  destruct (String.eqb _ _); [|discriminate].
  destruct (text response); [discriminate | trivial].
Qed.

(** X4.  The only exception that leaves [send_query] is the [NameError]
    for the name [google]. *)
Theorem send_query_raises_only_name_error :
  forall env cfg flag prompt model e flag',
    send_query env cfg flag prompt model = (Raise e, flag') ->
    e = name_error "google".
Proof.
  intros env cfg flag prompt model e flag'. unfold send_query.
  destruct (ensure_configured env cfg flag) as [ok f].
  destruct (negb ok); [discriminate|].
  set (body := match generate_content env model prompt with
               | Return response => read_response response
               | Raise e0 => Raise e0
               end).
  destruct body as [s|e0]; [discriminate|].
  destruct (Py.is_class RequestException e0) eqn:He.
  - rewrite (handle_request_exception e0 f He). discriminate.
  - rewrite (handle_other_exception e0 f He). now intros [= <- _].
Qed.

Lemma send_query_raises_only_name_error_witness :
  send_query (Scenarios.raising Scenarios.permission_denied)
    Scenarios.default_config true "Hello" "model-a"
  = (Raise (name_error "google"), true)
  /\ name_error "google" = name_error "google".
Proof.
  assert (H : send_query (Scenarios.raising Scenarios.permission_denied)
                Scenarios.default_config true "Hello" "model-a"
              = (Raise (name_error "google"), true)) by reflexivity.
  split; [exact H|].
  exact (send_query_raises_only_name_error
           (Scenarios.raising Scenarios.permission_denied)
           Scenarios.default_config true "Hello" "model-a"
           (name_error "google") true H).
Defined.

(** X5.  After the guard, [send_query] never writes [_genai_configured]:
    the flag it leaves is the flag the guard left.  In particular a flag
    that was set is still set, whatever the library did. *)
Theorem send_query_keeps_flag :
  forall env cfg flag prompt model,
    snd (send_query env cfg flag prompt model)
    = snd (ensure_configured env cfg flag)
    /\ (flag = true -> snd (send_query env cfg flag prompt model) = true).
Proof.
  intros env cfg flag prompt model.
  assert (H : snd (send_query env cfg flag prompt model)
              = snd (ensure_configured env cfg flag)).
  { unfold send_query.
    destruct (ensure_configured env cfg flag) as [ok f].
    destruct (negb ok); [reflexivity|].
    set (body := match generate_content env model prompt with
                 | Return response => read_response response
                 | Raise e0 => Raise e0
                 end).
    destruct body as [s|e0]; [reflexivity|].
    destruct (Py.is_class RequestException e0) eqn:He.
    - now rewrite (handle_request_exception e0 f He).
    - now rewrite (handle_other_exception e0 f He). }
  split; [exact H|]. intros ->. rewrite H. reflexivity.
Qed.

(** X6.  When the client is not configured and cannot be, [send_query]
    returns the text for a missing key with the flag cleared, whatever the
    library would answer to a query: no query is sent. *)
Theorem send_query_unconfigured_sends_nothing :
  forall env cfg flag flag' prompt model answer,
    ensure_configured env cfg flag = (false, flag') ->
    send_query (mkProvider (configure env) (fetch_models env) answer)
      cfg flag prompt model
    = (Return not_configured_message, false).
Proof.
  intros env cfg flag flag' prompt model answer Hc.
  pose proof (ensure_configured_flag env cfg flag false flag' Hc) as <-.
  unfold send_query.
  replace (ensure_configured (mkProvider (configure env) (fetch_models env) answer) cfg flag)
    with (ensure_configured env cfg flag) by reflexivity.
  now rewrite Hc.
Qed.

Lemma send_query_unconfigured_sends_nothing_witness :
  send_query
    (mkProvider (fun _ => Return tt) (Return [])
       (fun _ _ => Return Scenarios.greeting))
    (mkConfig None None) false "Hello" "model-a"
  = (Return "Error: API Key not configured or invalid.", false).
Proof.
  apply (send_query_unconfigured_sends_nothing
           (Scenarios.answering Scenarios.greeting) (mkConfig None None)
           false false "Hello" "model-a" (fun _ _ => Return Scenarios.greeting)).
  reflexivity.
Defined.

(** X7.  [configure_genai] returns [True] exactly when the stored key is
    not empty and [genai.configure] accepts it, and the flag it leaves is
    the value it returns. *)
Theorem configure_genai_succeeds_iff :
  forall env cfg,
    snd (configure_genai env cfg) = fst (configure_genai env cfg)
    /\ (fst (configure_genai env cfg) = true
        <-> exists k, api_key cfg = Some k /\ k <> EmptyString
                      /\ configure env k = Return tt).
Proof.
  intros env cfg. unfold configure_genai.
  destruct (api_key cfg) as [k|].
  - destruct k as [|c r]; simpl.
    + split; [reflexivity|]. split; [discriminate|].
      intros (k & [= <-] & Hk & _). contradiction.
    + destruct (configure env (String c r)) as [[]|e] eqn:E; simpl.
      * split; [reflexivity|]. split; [|reflexivity].
        intros _. exists (String c r). repeat split; [discriminate | exact E].
      * split; [reflexivity|]. split; [discriminate|].
        intros (k & [= <-] & _ & Hk). rewrite E in Hk. discriminate.
  - simpl. split; [reflexivity|]. split; [discriminate|].
    intros (k & Hk & _). discriminate.
Qed.

(** ** The list of models, continued *)

Lemma prefix_append_inv (p s : string) :
  String.prefix p s = true -> exists r, s = p ++ r.
Proof.
  revert s. induction p as [|a p IH]; intros s H.
  - now exists s.
  - destruct s as [|b s]; [discriminate|]. simpl in H.
    destruct (ascii_dec a b) as [->|]; [|discriminate].
    destruct (IH s H) as [r ->]. now exists r.
Qed.

(** Removing ['models/'] from a name that starts with ['models/gemini-']
    leaves a name that starts with ['gemini-']. *)
Lemma replace_gemini_name (name : string) :
  Py.startswith name "models/gemini-" = true ->
  Py.startswith (Py.replace name "models/" EmptyString) "gemini-" = true.
Proof.
  intros H. apply prefix_append_inv in H as [r ->].
  unfold Py.replace, Py.startswith. simpl.
  now destruct (Py.replace_from "models/" EmptyString 0 r).
Qed.

Lemma startswith_gemini_not_error (m : string) :
  Py.startswith m "gemini-" = true -> Py.startswith m "Error:" = false.
Proof.
  intros H. apply prefix_append_inv in H as [r ->]. reflexivity.
Qed.

Lemma models_cache_names (all_models : list ModelInfo) :
  Forall (fun m => Py.startswith m "gemini-" = true) (models_cache all_models).
Proof.
  unfold models_cache.
  apply (Permutation_Forall (sorted_perm _)).
  apply Forall_map, Forall_forall. intros m Hm.
  apply filter_In in Hm as [_ Hm]. unfold suitable in Hm.
  apply andb_true_iff in Hm as [_ Hm]. now apply replace_gemini_name.
Qed.

(** X8.  After a successful fetch, [list_models] returns either the
    placeholder for an empty selection or names that all start with
    ['gemini-']; no such name starts with ['Error:'], so a caller that
    tests the first element for ['Error:'] does not take a fetched list
    for a failure. *)
Theorem list_models_fetched_names :
  forall env cfg flag flag' all_models,
    ensure_configured env cfg flag = (true, flag') ->
    fetch_models env = Return all_models ->
    fst (list_models env cfg flag) = no_suitable_models
    \/ Forall (fun m => Py.startswith m "gemini-" = true
                        /\ Py.startswith m "Error:" = false)
         (fst (list_models env cfg flag)).
Proof.
  intros env cfg flag flag' all_models Hc Hf.
  unfold list_models. rewrite Hc, Hf. cbn [negb].
  pose proof (models_cache_names all_models) as Hn.
  destruct (models_cache all_models) as [|m ms]; [now left|].
  right. simpl fst. eapply Forall_impl; [|exact Hn].
  intros a Ha. split; [exact Ha | now apply startswith_gemini_not_error].
Qed.

Lemma list_models_fetched_names_witness :
  fst (list_models (Scenarios.listing (Return Scenarios.mixed_models))
         Scenarios.default_config true)
  = ["gemini-1.5-flash"; "gemini-pro"]
  /\ (fst (list_models (Scenarios.listing (Return Scenarios.mixed_models))
             Scenarios.default_config true) = no_suitable_models
      \/ Forall (fun m => Py.startswith m "gemini-" = true
                          /\ Py.startswith m "Error:" = false)
           (fst (list_models (Scenarios.listing (Return Scenarios.mixed_models))
                   Scenarios.default_config true))).
Proof.
  split; [reflexivity|].
  apply (list_models_fetched_names
           (Scenarios.listing (Return Scenarios.mixed_models))
           Scenarios.default_config true true Scenarios.mixed_models);
    reflexivity.
Defined.

Lemma split_without_separator (sep : ascii) (x : string) :
  Py.lacks sep x = true -> Py.split sep x = [x].
Proof.
  induction x as [|c r IH]; simpl; [reflexivity|].
  intros H. apply andb_true_iff in H as [Hc Hr].
  apply negb_true_iff in Hc. rewrite Hc, (IH Hr). reflexivity.
Qed.

Lemma split_append_separator (sep : ascii) (x rest : string) :
  Py.lacks sep x = true ->
  Py.split sep (x ++ String sep rest) = x :: Py.split sep rest.
Proof.
  induction x as [|c r IH]; simpl.
  - intros _. now rewrite Ascii.eqb_refl.
  - intros H. apply andb_true_iff in H as [Hc Hr].
    apply negb_true_iff in Hc. rewrite Hc, (IH Hr). reflexivity.
Qed.

Lemma split_join (sep : ascii) (l : list string) :
  l <> [] ->
  Forall (fun x => Py.lacks sep x = true) l ->
  Py.split sep (Py.join (String sep EmptyString) l) = l.
Proof.
  intros Hne Hl. unfold Py.join.
  induction Hl as [|x t Hx Ht IH]; [contradiction|].
  destruct t as [|y t'].
  - simpl. now apply split_without_separator.
  - change (String.concat (String sep EmptyString) (x :: y :: t'))
      with (x ++ String sep (String.concat (String sep EmptyString) (y :: t'))).
    rewrite (split_append_separator sep x _ Hx), IH; [reflexivity | discriminate].
Qed.

(** X9.  A list of names written to the setting as [",".join(names)] is
    read back unchanged by the fallback of [list_models], provided the
    list is not empty, no name holds a comma and the joined string is not
    empty. *)
Theorem fallback_models_reads_joined_list :
  forall key names,
    names <> [] ->
    Forall (fun x => Py.lacks ","%char x = true) names ->
    Py.join "," names <> EmptyString ->
    fallback_models (mkConfig key (Some (Py.join "," names))) = names.
Proof.
  intros key names Hne Hl Hj. unfold fallback_models.
  cbn [available_models].
  destruct (Py.join "," names) as [|c r] eqn:E; [contradiction|].
  cbn [Py.truthy]. rewrite <- E, (split_join ","%char names Hne Hl).
  destruct names; [contradiction | reflexivity].
Qed.

Lemma fallback_models_reads_joined_list_witness :
  fallback_models
    (mkConfig (Some "key") (Some (Py.join "," ["gemini-1.5-flash"; "gemini-pro"])))
  = ["gemini-1.5-flash"; "gemini-pro"].
Proof.
  apply (fallback_models_reads_joined_list (Some "key")
           ["gemini-1.5-flash"; "gemini-pro"]).
  - discriminate.
  - repeat constructor.
  - discriminate.
Defined.

(** * Further properties of the history store *)

Section HistoryMore.

Lemma select_history_all (limit : Z) (db : Db) :
  (limit < 0 \/ Z.of_nat (List.length (messages db)) <= limit)%Z ->
  Permutation (messages db) (select_history limit db)
  /\ StronglySorted older_first (select_history limit db).
Proof.
  intros H. unfold select_history, sql_limit.
  assert (E : (if (limit <? 0)%Z
               then order_by_timestamp_desc (messages db)
               else firstn (Z.to_nat limit) (order_by_timestamp_desc (messages db)))
              = order_by_timestamp_desc (messages db)).
  { destruct (limit <? 0)%Z eqn:El; [reflexivity|].
    apply Z.ltb_ge in El. apply firstn_all2.
    rewrite <- (Permutation_length (order_by_perm (messages db))). lia. }
  rewrite E. split.
  - rewrite <- Permutation_rev. apply order_by_perm.
  - exact (StronglySorted_rev newer_first _ (order_by_sorted (messages db))).
Qed.

Lemma order_by_newest (x : Row) (l : list Row) :
  Forall (fun r => (timestamp r < timestamp x)%Z) l ->
  order_by_timestamp_desc (l ++ [x])%list = x :: order_by_timestamp_desc l.
Proof.
  unfold order_by_timestamp_desc. rewrite fold_right_app. simpl.
  induction 1 as [|y t Hy Ht IH]; simpl; [reflexivity|].
  rewrite IH. simpl.
  destruct (timestamp x <? timestamp y)%Z eqn:E; [apply Z.ltb_lt in E; lia|].
  reflexivity.
Qed.

Lemma append_all_records (entries : list Append) :
  forall db,
    map record_of (messages (append_all entries db))
    = (map record_of (messages db)
       ++ map record_of_append
            (filter (fun a => role_allowed (append_role a)) entries))%list.
Proof.
  induction entries as [|a rest IH]; intros db; simpl.
  - now rewrite app_nil_r.
  - unfold add_message, except_sqlite.
    destruct (role_allowed (append_role a)); simpl.
    + rewrite IH. simpl. rewrite map_app, <- app_assoc. reflexivity.
    + apply IH.
Qed.

End HistoryMore.

(** X10.  With a limit that is at least the number of stored rows,
    [get_history] returns the record of every row, oldest first. *)
Theorem get_history_large_limit_returns_all :
  forall db limit,
    (Z.of_nat (List.length (messages db)) <= limit)%Z ->
    exists rows,
      get_history None limit db = Return (map record_of rows)
      /\ Permutation (messages db) rows
      /\ StronglySorted older_first rows.
Proof.
  intros db limit H. exists (select_history limit db).
  split; [reflexivity|]. apply select_history_all. now right.
Qed.

Lemma get_history_large_limit_returns_all_witness :
  (Z.of_nat (List.length (messages Scenarios.three_rows)) <= 99999)%Z
  /\ exists rows,
      get_history None 99999 Scenarios.three_rows = Return (map record_of rows)
      /\ Permutation (messages Scenarios.three_rows) rows
      /\ StronglySorted older_first rows.
Proof.
  assert (H : (Z.of_nat (List.length (messages Scenarios.three_rows)) <= 99999)%Z)
    by (simpl; lia).
  split; [exact H|].
  exact (get_history_large_limit_returns_all Scenarios.three_rows 99999 H).
Defined.

(** X11.  A negative limit does not bound the result: [get_history]
    returns the record of every row, oldest first. *)
Theorem get_history_negative_limit_returns_all :
  forall db limit,
    (limit < 0)%Z ->
    exists rows,
      get_history None limit db = Return (map record_of rows)
      /\ Permutation (messages db) rows
      /\ StronglySorted older_first rows.
Proof.
  intros db limit H. exists (select_history limit db).
  split; [reflexivity|]. apply select_history_all. now left.
Qed.

Lemma get_history_negative_limit_returns_all_witness :
  (-1 < 0)%Z
  /\ exists rows,
      get_history None (-1) Scenarios.three_rows = Return (map record_of rows)
      /\ Permutation (messages Scenarios.three_rows) rows
      /\ StronglySorted older_first rows.
Proof.
  assert (H : (-1 < 0)%Z) by lia.
  split; [exact H|].
  exact (get_history_negative_limit_returns_all Scenarios.three_rows (-1) H).
Defined.

(** X12.  A sequence of appends keeps the rows that were there, in their
    order, and adds after them the entries whose role is [user], [model]
    or [system], in the order of the calls; an entry with another role is
    dropped without a trace. *)
Theorem append_all_keeps_allowed_in_order :
  forall entries db,
    map record_of (messages (append_all entries db))
    = (map record_of (messages db)
       ++ map record_of_append
            (filter (fun a => role_allowed (append_role a)) entries))%list.
Proof. intros entries db. apply append_all_records. Qed.

(** X13.  A message appended at a clock reading later than every stored
    timestamp is the last record of the list that [get_history] returns
    next, for every limit of at least one. *)
Theorem appended_message_is_listed_last :
  forall db now role content model_used limit,
    role_allowed role = true ->
    Forall (fun r => (timestamp r < now)%Z) (messages db) ->
    (1 <= limit)%Z ->
    exists db' earlier,
      add_message None now role content model_used db = Return (tt, db')
      /\ get_history None limit db'
         = Return (earlier ++ [(now, role, content, model_used)])%list.
Proof.
  intros db now role content model_used limit Hr Hts Hl.
  unfold add_message, except_sqlite. rewrite Hr.
  set (x := mkRow (sequence db + 1) now role content model_used).
  eexists. exists (map record_of
                     (rev (firstn (Z.to_nat limit - 1)
                             (order_by_timestamp_desc (messages db))))).
  split; [reflexivity|].
  unfold get_history, except_sqlite, select_history, sql_limit. cbn [messages].
  destruct (limit <? 0)%Z eqn:E; [apply Z.ltb_lt in E; lia|].
  rewrite (order_by_newest x (messages db) Hts).
  destruct (Z.to_nat limit) as [|n] eqn:En; [lia|].
  simpl. rewrite Nat.sub_0_r, map_app. reflexivity.
Qed.

Lemma appended_message_is_listed_last_witness :
  exists db' earlier,
    add_message None 40 "model" "d" (Some "model-a") Scenarios.three_rows
    = Return (tt, db')
    /\ get_history None 2 db'
       = Return (earlier ++ [(40%Z, "model", "d", Some "model-a")])%list.
Proof.
  apply (appended_message_is_listed_last Scenarios.three_rows 40 "model" "d"
           (Some "model-a") 2).
  - reflexivity.
  - simpl. repeat constructor.
  - lia.
Defined.

(** * Further properties of the controller *)

Section ControllerMore.

Variables (env : Provider) (cfg : Config).

Lemma truthy_nonempty (s : string) : s <> EmptyString -> Py.truthy s = true.
Proof. destruct s; [contradiction | reflexivity]. Qed.

Lemma length_update_worker (n : nat) (f : Worker -> Worker) (l : list Worker) :
  List.length (update_worker n f l) = List.length l.
Proof.
  revert n. induction l as [|x t IH]; intros n.
  - destruct n; reflexivity.
  - destruct n; simpl; [reflexivity | now rewrite IH].
Qed.

Lemma length_stop_previous (current : option nat) (l : list Worker) :
  List.length (stop_previous current l) = List.length l.
Proof. destruct current; simpl; [apply length_update_worker | reflexivity]. Qed.

(** What [send_message] does once the three validations are passed. *)
Lemma send_message_dispatch (fault : Fault) (now : Z) (app : App)
    (m : string) (flag' : bool) (db' : Db) :
  Py.strip (input_area (window app)) <> EmptyString ->
  current_model (window app) = Some m ->
  model_invalid (Some m) = false ->
  ensure_configured env cfg (_genai_configured app) = (true, flag') ->
  add_message fault now "user" (Py.strip (input_area (window app))) None (db app)
  = Return (tt, db') ->
  send_message env cfg fault now app
  = Return
      (mkApp
         (mkWindow EmptyString false (Some m)
            (Some (List.length (workers app)))
            (chat_display (window app)
             ++ [mkDisplay "user" (Py.strip (input_area (window app))) None])%list
            true ("Sending to " ++ m ++ "...") (message_boxes (window app)))
         flag' db'
         (stop_previous (api_worker (window app)) (workers app)
          ++ [mkWorker (Py.strip (input_area (window app))) m true AtStart])%list
         (event_queue app)).
Proof.
  intros Hs Hm Hv Hc Ha. unfold send_message.
  rewrite (truthy_nonempty _ Hs), Hm, Hv, Hc. cbn [negb].
  unfold set_api_worker, set_progress_visible, set_status, set_input_enabled,
    clear_input, add_message_to_display. simpl.
  rewrite Ha, length_stop_previous, Hm. reflexivity.
Qed.

End ControllerMore.

(** X14.  With a prompt that is not blank but no valid model selected
    (none, the empty name, or a placeholder that starts with ['Error:']),
    [send_message] shows the box "Model Not Selected" and does nothing
    else: it does not try to configure the client, the history, the
    transcript, the workers and the input line stay as they are. *)
Theorem send_message_rejects_invalid_model :
  forall env cfg fault now app,
    Py.strip (input_area (window app)) <> EmptyString ->
    model_invalid (current_model (window app)) = true ->
    exists app',
      send_message env cfg fault now app = Return app'
      /\ message_boxes (window app')
         = (message_boxes (window app) ++ ["Model Not Selected"])%list
      /\ db app' = db app
      /\ workers app' = workers app
      /\ event_queue app' = event_queue app
      /\ _genai_configured app' = _genai_configured app
      /\ chat_display (window app') = chat_display (window app)
      /\ input_area (window app') = input_area (window app)
      /\ input_enabled (window app') = input_enabled (window app).
Proof.
  intros env cfg fault now app Hs Hm. unfold send_message.
  rewrite (truthy_nonempty _ Hs), Hm. cbn [negb].
  eexists. split; [reflexivity|]. now repeat split.
Qed.

Lemma send_message_rejects_invalid_model_witness :
  exists app',
    send_message (Scenarios.answering Scenarios.greeting) Scenarios.default_config
      None 1 Scenarios.placeholder_app = Return app'
    /\ message_boxes (window app') = ["Model Not Selected"]
    /\ db app' = empty_db
    /\ workers app' = [].
Proof.
  destruct (send_message_rejects_invalid_model
              (Scenarios.answering Scenarios.greeting) Scenarios.default_config
              None 1 Scenarios.placeholder_app)
    as (app' & H & Hb & Hd & Hw & _).
  - discriminate.
  - reflexivity.
  - exists app'. now repeat split.
Defined.

(** X15.  With a valid prompt and model but a client that is not
    configured and cannot be, [send_message] shows the box "API Key Error"
    last and sends nothing: the history, the transcript and the workers
    stay as they are and the flag is cleared. *)
Theorem send_message_rejects_missing_key :
  forall env cfg fault now app flag',
    Py.strip (input_area (window app)) <> EmptyString ->
    model_invalid (current_model (window app)) = false ->
    ensure_configured env cfg (_genai_configured app) = (false, flag') ->
    exists app' shown,
      send_message env cfg fault now app = Return app'
      /\ message_boxes (window app') = (shown ++ ["API Key Error"])%list
      /\ db app' = db app
      /\ workers app' = workers app
      /\ event_queue app' = event_queue app
      /\ _genai_configured app' = false
      /\ chat_display (window app') = chat_display (window app)
      /\ input_area (window app') = input_area (window app).
Proof.
  intros env cfg fault now app flag' Hs Hm Hc.
  pose proof (ensure_configured_flag env cfg _ _ _ Hc) as <-.
  unfold send_message.
  rewrite (truthy_nonempty _ Hs), Hm, Hc. cbn [negb].
  eexists. exists (message_boxes (show_api_key_warning_once cfg (window app))).
  split; [reflexivity|].
  unfold show_api_key_warning_once.
  destruct (setting_truthy (api_key cfg)); now repeat split.
Qed.

Lemma send_message_rejects_missing_key_witness :
  exists app' shown,
    send_message (Scenarios.answering Scenarios.greeting) (mkConfig None None)
      None 1 Scenarios.unconfigured_app = Return app'
    /\ message_boxes (window app') = (shown ++ ["API Key Error"])%list
    /\ db app' = empty_db
    /\ workers app' = [].
Proof.
  destruct (send_message_rejects_missing_key
              (Scenarios.answering Scenarios.greeting) (mkConfig None None)
              None 1 Scenarios.unconfigured_app false)
    as (app' & shown & H & Hb & Hd & Hw & _).
  - discriminate.
  - reflexivity.
  - reflexivity.
  - exists app', shown. now repeat split.
Defined.

(** X16.  With a valid prompt and model and a configured client,
    [send_message] stores the stripped prompt as a [user] record, shows it
    in the transcript, empties and disables the input line, shows the
    progress bar, and starts one new worker for the stripped prompt and the
    selected model, which becomes the current worker; nothing is queued. *)
Theorem send_message_dispatches :
  forall env cfg now app m flag',
    Py.strip (input_area (window app)) <> EmptyString ->
    current_model (window app) = Some m ->
    model_invalid (Some m) = false ->
    ensure_configured env cfg (_genai_configured app) = (true, flag') ->
    exists app',
      send_message env cfg None now app = Return app'
      /\ map record_of (messages (db app'))
         = (map record_of (messages (db app))
            ++ [(now, "user", Py.strip (input_area (window app)), None)])%list
      /\ chat_display (window app')
         = (chat_display (window app)
            ++ [mkDisplay "user" (Py.strip (input_area (window app))) None])%list
      /\ input_area (window app') = EmptyString
      /\ input_enabled (window app') = false
      /\ progress_visible (window app') = true
      /\ api_worker (window app') = Some (List.length (workers app))
      /\ nth_error (workers app') (List.length (workers app))
         = Some (mkWorker (Py.strip (input_area (window app))) m true AtStart)
      /\ List.length (workers app') = S (List.length (workers app))
      /\ event_queue app' = event_queue app.
Proof.
  intros env cfg now app m flag' Hs Hm Hv Hc.
  eexists. split.
  - eapply (send_message_dispatch env cfg None now app m flag'); eauto.
    reflexivity.
  - cbn [db window messages chat_display input_area input_enabled
         progress_visible api_worker workers event_queue].
    repeat split.
    + now rewrite map_app.
    + rewrite nth_error_app2; rewrite length_stop_previous; [|lia].
      now rewrite Nat.sub_diag.
    + rewrite length_app, length_stop_previous. simpl. lia.
Qed.

Lemma send_message_dispatches_witness :
  exists app',
    send_message (Scenarios.answering Scenarios.greeting) Scenarios.default_config
      None 1 Scenarios.typed_app = Return app'
    /\ map record_of (messages (db app')) = [(1%Z, "user", "Hello", None)]
    /\ nth_error (workers app') 0 = Some (mkWorker "Hello" "model-a" true AtStart).
Proof.
  destruct (send_message_dispatches
              (Scenarios.answering Scenarios.greeting) Scenarios.default_config
              1 Scenarios.typed_app "model-a" true)
    as (app' & H & Hd & _ & _ & _ & _ & _ & Hw & _).
  - discriminate.
  - reflexivity.
  - reflexivity.
  - reflexivity.
  - exists app'. repeat split; assumption.
Defined.

(** X17.  When the database refuses the [user] record with an
    [sqlite3.Error], [send_message] goes on all the same: the prompt is
    shown in the transcript and a worker is started for it, while the
    history stays as it was. *)
Theorem send_message_database_error_still_dispatches :
  forall env cfg e now app m flag',
    exn_class e = SqliteError ->
    Py.strip (input_area (window app)) <> EmptyString ->
    current_model (window app) = Some m ->
    model_invalid (Some m) = false ->
    ensure_configured env cfg (_genai_configured app) = (true, flag') ->
    exists app',
      send_message env cfg (Some e) now app = Return app'
      /\ db app' = db app
      /\ chat_display (window app')
         = (chat_display (window app)
            ++ [mkDisplay "user" (Py.strip (input_area (window app))) None])%list
      /\ nth_error (workers app') (List.length (workers app))
         = Some (mkWorker (Py.strip (input_area (window app))) m true AtStart).
Proof.
  intros env cfg e now app m flag' He Hs Hm Hv Hc.
  eexists. split.
  - apply (send_message_dispatch env cfg (Some e) now app m flag' (db app) Hs Hm Hv Hc).
    unfold add_message, except_sqlite. now rewrite (is_class_sqlite e He).
  - cbn [db window chat_display workers]. repeat split.
    rewrite nth_error_app2; rewrite length_stop_previous; [|lia].
    now rewrite Nat.sub_diag.
Qed.

Lemma send_message_database_error_still_dispatches_witness :
  exists app',
    send_message (Scenarios.answering Scenarios.greeting) Scenarios.default_config
      (Some Scenarios.database_locked) 1 Scenarios.typed_app = Return app'
    /\ db app' = empty_db
    /\ chat_display (window app') = [mkDisplay "user" "Hello" None]
    /\ nth_error (workers app') 0 = Some (mkWorker "Hello" "model-a" true AtStart).
Proof.
  destruct (send_message_database_error_still_dispatches
              (Scenarios.answering Scenarios.greeting) Scenarios.default_config
              Scenarios.database_locked 1 Scenarios.typed_app "model-a" true)
    as (app' & H & Hd & Hc & Hw).
  - reflexivity.
  - discriminate.
  - reflexivity.
  - reflexivity.
  - reflexivity.
  - exists app'. repeat split; assumption.
Defined.

(** X18.  A call of [send_message] that passes the validations clears the
    flag of the worker it replaces when the thread of that worker has not
    finished, and leaves every other worker as it is. *)
Theorem send_message_supersedes_running_worker :
  forall env cfg fault now app m flag' db' n wk,
    Py.strip (input_area (window app)) <> EmptyString ->
    current_model (window app) = Some m ->
    model_invalid (Some m) = false ->
    ensure_configured env cfg (_genai_configured app) = (true, flag') ->
    add_message fault now "user" (Py.strip (input_area (window app))) None (db app)
    = Return (tt, db') ->
    api_worker (window app) = Some n ->
    nth_error (workers app) n = Some wk ->
    isRunning wk = true ->
    exists app',
      send_message env cfg fault now app = Return app'
      /\ nth_error (workers app') n = Some (stop wk)
      /\ is_stopped n app' = true
      /\ (forall k w, k <> n -> nth_error (workers app) k = Some w ->
                      nth_error (workers app') k = Some w).
Proof.
  intros env cfg fault now app m flag' db' n wk Hs Hm Hv Hc Ha Hn Hwk Hrun.
  eexists. split;
    [exact (send_message_dispatch env cfg fault now app m flag' db' Hs Hm Hv Hc Ha)|].
  assert (Hn' : nth_error
                  (stop_previous (api_worker (window app)) (workers app)
                   ++ [mkWorker (Py.strip (input_area (window app))) m true AtStart])%list n
                = Some (stop wk)).
  { apply nth_error_snoc_some. rewrite Hn. simpl.
    now rewrite nth_error_update_worker, Hwk, Nat.eqb_refl, Hrun. }
  split; [exact Hn'|]. split.
  - unfold is_stopped. cbn [workers]. now rewrite Hn'.
  - intros k w Hk Hkw. cbn [workers]. apply nth_error_snoc_some.
    rewrite Hn. simpl. rewrite nth_error_update_worker, Hkw.
    apply Nat.eqb_neq in Hk. rewrite Nat.eqb_sym in Hk. now rewrite Hk.
Qed.

Lemma send_message_supersedes_running_worker_witness :
  exists app',
    send_message (Scenarios.answering Scenarios.greeting) Scenarios.default_config
      None 2 Scenarios.before_supersede = Return app'
    /\ nth_error (workers app') 0 = Some (mkWorker "first" "model-a" false InCall)
    /\ is_stopped 0 app' = true.
Proof.
  destruct (send_message_supersedes_running_worker
              (Scenarios.answering Scenarios.greeting) Scenarios.default_config
              None 2 Scenarios.before_supersede "model-a" true
              (mkDb [mkRow 1 1 "user" "first" None; mkRow 2 2 "user" "second" None] 2)
              0 (mkWorker "first" "model-a" true InCall))
    as (app' & H & Hw & Hs & _).
  - discriminate.
  - reflexivity.
  - reflexivity.
  - reflexivity.
  - reflexivity.
  - reflexivity.
  - reflexivity.
  - reflexivity.
  - exists app'. repeat split; assumption.
Defined.

(** ** A worker that nobody stops *)

Section WorkerRun.

Variables (env : Provider) (cfg : Config).

Lemma nth_error_update_same (f : Worker -> Worker) (l : list Worker)
    (n : nat) (w : Worker) :
  nth_error l n = Some w -> nth_error (update_worker n f l) n = Some (f w).
Proof. intros H. now rewrite nth_error_update_worker, H, Nat.eqb_refl. Qed.

Lemma update_worker_twice (f g : Worker -> Worker) (l : list Worker) (n : nat) :
  update_worker n g (update_worker n f l) = update_worker n (fun w => g (f w)) l.
Proof.
  revert n. induction l as [|x t IH]; intros n.
  - destruct n; reflexivity.
  - destruct n; simpl; [reflexivity | now rewrite IH].
Qed.

(** The three steps of the thread of a worker whose flag stays set. *)
Lemma run_step_thrice (n : nat) (app : App) (wk : Worker) :
  nth_error (workers app) n = Some wk ->
  pc wk = AtStart ->
  _is_running wk = true ->
  run_step env cfg n (run_step env cfg n (run_step env cfg n app))
  = mkApp (window app)
      (snd (send_query env cfg (_genai_configured app) (prompt wk)
              (main_window.model_name wk)))
      (db app)
      (update_worker n
         (fun w => mkWorker (prompt w) (main_window.model_name w) (_is_running w) Finished)
         (workers app))
      (event_queue app
       ++ tag n (delivery true
                   (fst (send_query env cfg (_genai_configured app)
                           (prompt wk) (main_window.model_name wk)))
                 ++ [finished]))%list.
Proof.
  intros Hn Hpc Hrun.
  assert (E1 : run_step env cfg n app
               = mkApp (window app) (_genai_configured app) (db app)
                   (update_worker n
                      (fun w => mkWorker (prompt w) (main_window.model_name w)
                                  (_is_running w) InCall)
                      (workers app))
                   (event_queue app)).
  { unfold run_step. now rewrite Hn, Hpc, Hrun. }
  rewrite E1. clear E1.
  unfold run_step at 2. cbn [workers].
  rewrite (nth_error_update_same _ _ _ _ Hn). cbn [pc prompt main_window.model_name].
  destruct (send_query env cfg _ (prompt wk) (main_window.model_name wk))
    as [result flag].
  cbn [_genai_configured window db workers event_queue fst snd].
  unfold run_step. cbn [workers].
  rewrite update_worker_twice, (nth_error_update_same _ _ _ _ Hn).
  cbn [pc _is_running window db event_queue _genai_configured].
  rewrite Hrun, update_worker_twice. reflexivity.
Qed.

End WorkerRun.

(** X19.  A worker whose flag is still set when its thread runs from the
    start to the end queues exactly two signals after those already
    queued: the outcome of its call of [send_query] for its prompt and
    model ([response_ready] with the returned text, or [error_occurred]
    with the type and message of the exception), then [finished].  The
    window and the history are untouched by the thread. *)
Theorem running_worker_delivers_outcome :
  forall env cfg n app wk,
    nth_error (workers app) n = Some wk ->
    pc wk = AtStart ->
    _is_running wk = true ->
    exists app',
      run env cfg [Tick n; Tick n; Tick n] app = Return app'
      /\ event_queue app'
         = (event_queue app
            ++ [(n, match fst (send_query env cfg (_genai_configured app)
                                 (prompt wk) (main_window.model_name wk)) with
                    | Return response => response_ready response
                    | Raise e =>
                        error_occurred
                          ("Worker thread error: " ++ Py.type_name e ++ ": " ++ exn_msg e)
                    end);
                (n, finished)])%list
      /\ window app' = window app
      /\ db app' = db app.
Proof.
  intros env cfg n app wk Hn Hpc Hrun. eexists. split.
  - cbn [run step]. rewrite (run_step_thrice env cfg n app wk Hn Hpc Hrun).
    reflexivity.
  - cbn [event_queue window db]. repeat split.
    destruct (fst (send_query env cfg (_genai_configured app) (prompt wk)
                     (main_window.model_name wk))); reflexivity.
Qed.

Lemma running_worker_delivers_outcome_witness :
  exists app',
    run (Scenarios.raising Scenarios.permission_denied) Scenarios.default_config
      [Tick 1; Tick 1; Tick 1] Scenarios.superseded_app = Return app'
    /\ event_queue app'
       = [(1, error_occurred "Worker thread error: NameError: name 'google' is not defined");
          (1, finished)].
Proof.
  destruct (running_worker_delivers_outcome
              (Scenarios.raising Scenarios.permission_denied)
              Scenarios.default_config 1 Scenarios.superseded_app
              (mkWorker "second" "model-a" true AtStart))
    as (app' & H & Hq & _).
  - reflexivity.
  - reflexivity.
  - reflexivity.
  - exists app'. split; [exact H | exact Hq].
Defined.

(** ** One request from the input line to the history *)

Section OneRequest.

Variables (env : Provider) (cfg : Config).

Lemma run_app (evs1 evs2 : list Event) :
  forall a a1,
    run env cfg evs1 a = Return a1 ->
    run env cfg (evs1 ++ evs2)%list a = run env cfg evs2 a1.
Proof.
  induction evs1 as [|ev rest IH]; simpl; intros a a1 Hr.
  - now injection Hr as <-.
  - destruct (step env cfg ev a); [now apply IH | discriminate].
Qed.

(** The state after the prompt is typed and sent and the worker has run to
    its end, before the UI thread handles the two signals. *)
Lemma one_request_before_delivery (text m : string) :
  Py.strip text <> EmptyString ->
  model_invalid (Some m) = false ->
  run env cfg [Edit text; Send None 1; Tick 0; Tick 0; Tick 0]
    (initial_app (Some m) true)
  = Return
      (mkApp
         (mkWindow EmptyString false (Some m) (Some 0)
            [mkDisplay "user" (Py.strip text) None]
            true ("Sending to " ++ m ++ "...") [])
         (snd (send_query env cfg true (Py.strip text) m))
         (mkDb [mkRow 1 1 "user" (Py.strip text) None] 1)
         [mkWorker (Py.strip text) m true Finished]
         (tag 0 (delivery true (fst (send_query env cfg true (Py.strip text) m))
                 ++ [finished]))).
Proof.
  intros Hs Hv.
  change (run env cfg [Edit text; Send None 1; Tick 0; Tick 0; Tick 0]
            (initial_app (Some m) true))
    with (match send_message env cfg None 1
                  (with_window (initial_app (Some m) true)
                     (set_input text (initial_window (Some m)))) with
          | Return app' => run env cfg [Tick 0; Tick 0; Tick 0] app'
          | Raise e => Raise e
          end).
  erewrite (send_message_dispatch env cfg None 1 _ m true); eauto;
    try reflexivity.
  cbn [run step].
  erewrite run_step_thrice; try reflexivity.
  reflexivity.
Qed.

End OneRequest.

(** X20.  One request that nothing interrupts, from a window with a valid
    model and a configured client: when [send_query] returns a text that
    starts with neither ['Error:'] nor ['Blocked:'], the history holds the
    stripped prompt as a [user] record followed by that text as a [model]
    record with the selected model, the transcript shows the same two
    messages, and at the end the input is enabled again, the progress bar
    hidden and the queue empty. *)
Theorem request_with_text_is_recorded :
  forall env cfg text m s,
    Py.strip text <> EmptyString ->
    model_invalid (Some m) = false ->
    fst (send_query env cfg true (Py.strip text) m) = Return s ->
    is_error_text s = false ->
    exists app',
      run env cfg (Scenarios.one_request text) (initial_app (Some m) true)
      = Return app'
      /\ map record_of (messages (db app'))
         = [(1%Z, "user", Py.strip text, None); (2%Z, "model", s, Some m)]
      /\ chat_display (window app')
         = [mkDisplay "user" (Py.strip text) None; mkDisplay "model" s (Some m)]
      /\ input_enabled (window app') = true
      /\ progress_visible (window app') = false
      /\ event_queue app' = [].
Proof.
  intros env cfg text m s Hs Hv Hq He.
  pose proof (one_request_before_delivery env cfg text m Hs Hv) as H.
  rewrite Hq in H.
  unfold Scenarios.one_request.
  change [Edit text; Send None 1; Tick 0; Tick 0; Tick 0; Deliver None 2; Deliver None 3]
    with ([Edit text; Send None 1; Tick 0; Tick 0; Tick 0]
          ++ [Deliver None 2; Deliver None 3])%list.
  rewrite (run_app env cfg _ _ _ _ H). clear H.
  cbn [run step deliver event_queue tag delivery map app slot].
  unfold handle_response. rewrite He.
  cbn [window db current_model].
  eexists. split; [reflexivity|]. now repeat split.
Qed.

Lemma request_with_text_is_recorded_witness :
  exists app',
    run (Scenarios.answering Scenarios.greeting) Scenarios.default_config
      (Scenarios.one_request "  Hello ") (initial_app (Some "model-a") true)
    = Return app'
    /\ map record_of (messages (db app'))
       = [(1%Z, "user", "Hello", None); (2%Z, "model", "Hi there", Some "model-a")].
Proof.
  destruct (request_with_text_is_recorded
              (Scenarios.answering Scenarios.greeting) Scenarios.default_config
              "  Hello " "model-a" "Hi there")
    as (app' & H & Hd & _).
  - discriminate.
  - reflexivity.
  - reflexivity.
  - reflexivity.
  - exists app'. split; [exact H | exact Hd].
Defined.

(** X21.  In the same request, when [send_query] returns a text that
    starts with ['Error:'] or ['Blocked:'] (a text of the client itself, or
    a generated text that happens to start so), the text is shown with the
    role [error] and the history holds the [user] record alone. *)
Theorem request_with_error_text_is_not_recorded :
  forall env cfg text m s,
    Py.strip text <> EmptyString ->
    model_invalid (Some m) = false ->
    fst (send_query env cfg true (Py.strip text) m) = Return s ->
    is_error_text s = true ->
    exists app',
      run env cfg (Scenarios.one_request text) (initial_app (Some m) true)
      = Return app'
      /\ map record_of (messages (db app'))
         = [(1%Z, "user", Py.strip text, None)]
      /\ chat_display (window app')
         = [mkDisplay "user" (Py.strip text) None; mkDisplay "error" s None]
      /\ input_enabled (window app') = true
      /\ progress_visible (window app') = false
      /\ status_label (window app') = "API Error occurred.".
Proof.
  intros env cfg text m s Hs Hv Hq He.
  pose proof (one_request_before_delivery env cfg text m Hs Hv) as H.
  rewrite Hq in H.
  unfold Scenarios.one_request.
  change [Edit text; Send None 1; Tick 0; Tick 0; Tick 0; Deliver None 2; Deliver None 3]
    with ([Edit text; Send None 1; Tick 0; Tick 0; Tick 0]
          ++ [Deliver None 2; Deliver None 3])%list.
  rewrite (run_app env cfg _ _ _ _ H). clear H.
  cbn [run step deliver event_queue tag delivery map app slot].
  unfold handle_response. rewrite He.
  eexists. split; [reflexivity|]. now repeat split.
Qed.

Lemma request_with_error_text_is_not_recorded_witness :
  exists app',
    run (Scenarios.answering (mkResponse [mkPart "Error: 404 is the HTTP code for a missing page."]
                                None [mkCandidate FinishReason.STOP []]))
      Scenarios.default_config
      (Scenarios.one_request "What does Error: 404 mean?")
      (initial_app (Some "model-a") true)
    = Return app'
    /\ map record_of (messages (db app'))
       = [(1%Z, "user", "What does Error: 404 mean?", None)].
Proof.
  destruct (request_with_error_text_is_not_recorded
              (Scenarios.answering
                 (mkResponse [mkPart "Error: 404 is the HTTP code for a missing page."]
                    None [mkCandidate FinishReason.STOP []]))
              Scenarios.default_config
              "What does Error: 404 mean?" "model-a"
              "Error: 404 is the HTTP code for a missing page.")
    as (app' & H & Hd & _).
  - discriminate.
  - reflexivity.
  - reflexivity.
  - reflexivity.
  - exists app'. split; [exact H | exact Hd].
Defined.

(** X22.  In the same request, when [send_query] raises, the transcript
    shows the message of the worker with the type and message of the
    exception under the role [error], the history holds the [user] record
    alone, and the input is enabled again at the end. *)
Theorem request_with_exception_is_not_recorded :
  forall env cfg text m e,
    Py.strip text <> EmptyString ->
    model_invalid (Some m) = false ->
    fst (send_query env cfg true (Py.strip text) m) = Raise e ->
    exists app',
      run env cfg (Scenarios.one_request text) (initial_app (Some m) true)
      = Return app'
      /\ map record_of (messages (db app'))
         = [(1%Z, "user", Py.strip text, None)]
      /\ chat_display (window app')
         = [mkDisplay "user" (Py.strip text) None;
            mkDisplay "error"
              ("Worker thread error: " ++ Py.type_name e ++ ": " ++ exn_msg e) None]
      /\ input_enabled (window app') = true
      /\ progress_visible (window app') = false.
Proof.
  intros env cfg text m e Hs Hv Hq.
  pose proof (one_request_before_delivery env cfg text m Hs Hv) as H.
  rewrite Hq in H.
  unfold Scenarios.one_request.
  change [Edit text; Send None 1; Tick 0; Tick 0; Tick 0; Deliver None 2; Deliver None 3]
    with ([Edit text; Send None 1; Tick 0; Tick 0; Tick 0]
          ++ [Deliver None 2; Deliver None 3])%list.
  rewrite (run_app env cfg _ _ _ _ H). clear H.
  cbn [run step deliver event_queue tag delivery map app slot].
  eexists. split; [reflexivity|]. now repeat split.
Qed.

Lemma request_with_exception_is_not_recorded_witness :
  exists app',
    run (Scenarios.raising Scenarios.permission_denied) Scenarios.default_config
      (Scenarios.one_request "Hello") (initial_app (Some "model-a") true)
    = Return app'
    /\ map record_of (messages (db app')) = [(1%Z, "user", "Hello", None)]
    /\ chat_display (window app')
       = [mkDisplay "user" "Hello" None;
          mkDisplay "error"
            "Worker thread error: NameError: name 'google' is not defined" None].
Proof.
  destruct (request_with_exception_is_not_recorded
              (Scenarios.raising Scenarios.permission_denied)
              Scenarios.default_config "Hello" "model-a" (name_error "google"))
    as (app' & H & Hd & Hc & _).
  - discriminate.
  - reflexivity.
  - reflexivity.
  - exists app'. repeat split; assumption.
Defined.

(** * The hotkey listener *)

Section Hotkeys.

Import hotkey_listener.

Lemma key_eqb_eq (a b : Key) : key_eqb a b = true <-> a = b.
Proof.
  destruct a as [n|c], b as [n'|c']; simpl.
  - rewrite String.eqb_eq. split; [now intros -> | now intros [= ->]].
  - split; discriminate.
  - split; discriminate.
  - rewrite Ascii.eqb_eq. split; [now intros -> | now intros [= ->]].
Qed.

Lemma key_eqb_refl (a : Key) : key_eqb a a = true.
Proof. now apply key_eqb_eq. Qed.

Lemma key_eqb_sym (a b : Key) : key_eqb a b = key_eqb b a.
Proof.
  destruct (key_eqb a b) eqn:E.
  - apply key_eqb_eq in E as ->. symmetry. apply key_eqb_refl.
  - destruct (key_eqb b a) eqn:E'; [|reflexivity].
    apply key_eqb_eq in E' as ->. now rewrite key_eqb_refl in E.
Qed.

Lemma mem_add (x k : Key) (s : list Key) :
  mem x (add k s) = key_eqb k x || mem x s.
Proof.
  unfold add. destruct (mem k s) eqn:E; [|reflexivity].
  destruct (key_eqb k x) eqn:Ex; [|reflexivity].
  apply key_eqb_eq in Ex as <-. exact E.
Qed.

Lemma mem_remove (x k : Key) (s : list Key) :
  mem x (remove k s) = negb (key_eqb x k) && mem x s.
Proof.
  unfold remove. induction s as [|y t IH]; simpl.
  - now rewrite andb_false_r.
  - destruct (key_eqb y k) eqn:Ey; simpl.
    + apply key_eqb_eq in Ey as ->. rewrite IH.
      rewrite (key_eqb_sym k x). now destruct (key_eqb x k).
    + rewrite IH. destruct (key_eqb y x) eqn:Eyx; simpl.
      * apply key_eqb_eq in Eyx as <-. now rewrite Ey.
      * reflexivity.
Qed.

Lemma issubset_mem (c s : list Key) (k : Key) :
  issubset c s = true -> mem k c = true -> mem k s = true.
Proof.
  unfold issubset. induction c as [|y t IH]; simpl; [discriminate|].
  intros H Hk. apply andb_true_iff in H as [Hy Ht].
  apply orb_true_iff in Hk as [Hk|Hk]; [|now apply IH].
  now apply key_eqb_eq in Hk as <-.
Qed.

Lemma issubset_mono (c s s' : list Key) :
  (forall x, mem x s = true -> mem x s' = true) ->
  issubset c s = true -> issubset c s' = true.
Proof.
  intros Hs. unfold issubset. rewrite !forallb_forall.
  intros H x Hx. apply Hs, H, Hx.
Qed.

Lemma issubset_ext (c s s' : list Key) :
  (forall x, mem x s = mem x s') -> issubset c s = issubset c s'.
Proof.
  intros Hs. unfold issubset.
  induction c as [|y t IH]; simpl; [reflexivity | now rewrite Hs, IH].
Qed.

Lemma comb_held_mono (comb : option (list Key)) (s s' : list Key) :
  (forall x, mem x s = true -> mem x s' = true) ->
  comb_held comb s = true -> comb_held comb s' = true.
Proof.
  destruct comb as [[|k c]|]; simpl; try discriminate.
  intros Hs. exact (issubset_mono (k :: c) s s' Hs).
Qed.

Lemma times_emit (s s' : HotkeySignal) (t sc : option (list Key))
    (keys : list Key) (p : list string) (e : list HotkeySignal) :
  times s (mkListener t sc keys p (e ++ [s'])%list)
  = times s (mkListener t sc keys p e) + (if signal_eqb s s' then 1 else 0).
Proof.
  unfold times. simpl. rewrite filter_app, length_app. simpl.
  now destruct (signal_eqb s s').
Qed.

Lemma noted_pop (e e' : string) (p : list string) :
  existsb (String.eqb e) (pop e' p)
  = negb (String.eqb e' e) && existsb (String.eqb e) p.
Proof.
  unfold pop. induction p as [|x t IH]; simpl.
  - now rewrite andb_false_r.
  - destruct (String.eqb e' x) eqn:Ex; simpl.
    + apply String.eqb_eq in Ex as <-. rewrite IH.
      rewrite (String.eqb_sym e e'). now destruct (String.eqb e' e).
    + rewrite IH. destruct (String.eqb e x) eqn:Ee; simpl.
      * apply String.eqb_eq in Ee as <-. now rewrite Ex.
      * reflexivity.
Qed.

(** One block of [_check_hotkeys]. *)
Lemma check_one_signal (s s0 : HotkeySignal) (comb : option (list Key))
    (entry : string) (l : HotkeyListener) :
  times s (check_one comb entry s0 l)
  = times s l
    + (if comb_held comb (current_keys l) && negb (noted entry l) && signal_eqb s s0
       then 1 else 0)
  /\ (forall e, noted e (check_one comb entry s0 l)
                = noted e l || (String.eqb e entry && comb_held comb (current_keys l)))
  /\ current_keys (check_one comb entry s0 l) = current_keys l
  /\ toggle_hotkey_comb (check_one comb entry s0 l) = toggle_hotkey_comb l
  /\ screenshot_hotkey_comb (check_one comb entry s0 l) = screenshot_hotkey_comb l.
Proof.
  unfold check_one, noted.
  destruct (comb_held comb (current_keys l)) eqn:Hh.
  - destruct (existsb (String.eqb entry) (_pressed_map l)) eqn:Hp.
    + simpl. split; [lia|]. split; [|now repeat split].
      intros e. rewrite andb_true_r.
      destruct (String.eqb e entry) eqn:Ee; [|now rewrite orb_false_r].
      apply String.eqb_eq in Ee as ->. now rewrite Hp.
    + split; [|split; [|now repeat split]].
      * destruct l as [t sc keys p em]. cbn [emitted current_keys _pressed_map
          toggle_hotkey_comb screenshot_hotkey_comb].
        rewrite times_emit. simpl. reflexivity.
      * intros e. cbn [_pressed_map existsb]. rewrite andb_true_r.
        rewrite (String.eqb_sym e entry).
        now destruct (String.eqb entry e), (existsb (String.eqb e) (_pressed_map l)).
  - simpl. split; [lia|]. split; [|now repeat split].
    intros e. now rewrite andb_false_r, orb_false_r.
Qed.

(** What [on_press] does to one hotkey: the signal is emitted when the
    combination is held after the key is added and its entry is not yet
    noted, and the entry is noted from then on. *)
Lemma on_press_signal (s : HotkeySignal) (key : Key) (l : HotkeyListener) :
  times s (on_press key l)
  = times s l
    + (if comb_held (comb_of s l) (add (normalize key) (current_keys l))
          && negb (noted (entry_of s) l)
       then 1 else 0)
  /\ noted (entry_of s) (on_press key l)
     = noted (entry_of s) l
       || comb_held (comb_of s l) (add (normalize key) (current_keys l))
  /\ current_keys (on_press key l) = add (normalize key) (current_keys l)
  /\ comb_of s (on_press key l) = comb_of s l.
Proof.
  unfold on_press, _check_hotkeys.
  set (l1 := mkListener (toggle_hotkey_comb l) (screenshot_hotkey_comb l)
               (add (normalize key) (current_keys l)) (_pressed_map l) (emitted l)).
  set (l2 := check_one (toggle_hotkey_comb l1) "toggle" toggle_visibility_triggered l1).
  destruct (check_one_signal s toggle_visibility_triggered (toggle_hotkey_comb l1)
              "toggle" l1) as (T1 & N1 & K1 & C1 & S1).
  destruct (check_one_signal s screenshot_full_triggered (screenshot_hotkey_comb l1)
              "screenshot" l2) as (T2 & N2 & K2 & C2 & S2).
  fold l2 in T1, N1, K1, C1, S1.
  assert (E1 : times s l1 = times s l) by reflexivity.
  assert (E2 : forall e, noted e l1 = noted e l) by reflexivity.
  assert (E3 : current_keys l1 = add (normalize key) (current_keys l)) by reflexivity.
  rewrite T2, T1, E1, (N2 (entry_of s)), (N1 (entry_of s)), ?(N1 "screenshot"),
    ?E2, ?K2, ?K1, ?E3.
  destruct s; cbn [entry_of comb_of signal_eqb];
    rewrite ?C2, ?C1, ?S2, ?S1;
    change (toggle_hotkey_comb l1) with (toggle_hotkey_comb l);
    change (screenshot_hotkey_comb l1) with (screenshot_hotkey_comb l);
    change (String.eqb "toggle" "screenshot") with false;
    change (String.eqb "toggle" "toggle") with true;
    change (String.eqb "screenshot" "screenshot") with true;
    change (String.eqb "screenshot" "toggle") with false;
    destruct (comb_held (toggle_hotkey_comb l) (add (normalize key) (current_keys l)));
    destruct (comb_held (screenshot_hotkey_comb l) (add (normalize key) (current_keys l)));
    destruct (noted "toggle" l); destruct (noted "screenshot" l);
    simpl; repeat split; lia.
Qed.

Lemma on_release_signal (s : HotkeySignal) (key : Key) (l : HotkeyListener) :
  times s (on_release key l) = times s l
  /\ noted (entry_of s) (on_release key l)
     = negb (in_comb (normalize key) (comb_of s l)) && noted (entry_of s) l
  /\ (forall x, mem x (current_keys (on_release key l))
                = negb (key_eqb x (normalize key)) && mem x (current_keys l))
  /\ comb_of s (on_release key l) = comb_of s l.
Proof.
  unfold on_release, noted.
  cbn [toggle_hotkey_comb screenshot_hotkey_comb current_keys _pressed_map emitted].
  split; [reflexivity|]. split; [|split].
  - destruct s; cbn [entry_of comb_of _pressed_map];
      destruct (in_comb (normalize key) (toggle_hotkey_comb l));
      destruct (in_comb (normalize key) (screenshot_hotkey_comb l));
      rewrite ?noted_pop; reflexivity.
  - intros x. cbn [current_keys].
    destruct (mem (normalize key) (current_keys l)) eqn:E.
    + apply mem_remove.
    + destruct (key_eqb x (normalize key)) eqn:Ex; [|reflexivity].
      apply key_eqb_eq in Ex as ->. now rewrite E.
  - destruct s; reflexivity.
Qed.

Lemma handle_events_press (key : Key) (keys : list Key) (l : HotkeyListener) :
  handle_events (map Press (key :: keys)) l
  = handle_events (map Press keys) (on_press key l).
Proof. reflexivity. Qed.

Lemma mem_after_presses (x : Key) (keys : list Key) :
  forall l,
    mem x (current_keys (handle_events (map Press keys) l))
    = mem x (map normalize keys) || mem x (current_keys l).
Proof.
  induction keys as [|k ks IH]; intros l; [reflexivity|].
  rewrite handle_events_press, IH.
  destruct (on_press_signal toggle_visibility_triggered k l) as (_ & _ & -> & _).
  rewrite mem_add. simpl.
  destruct (key_eqb (normalize k) x), (mem x (map normalize ks)); reflexivity.
Qed.

Lemma comb_of_after_presses (s : HotkeySignal) (keys : list Key) :
  forall l, comb_of s (handle_events (map Press keys) l) = comb_of s l.
Proof.
  induction keys as [|k ks IH]; intros l; [reflexivity|].
  rewrite handle_events_press, IH.
  now destruct (on_press_signal s k l) as (_ & _ & _ & ->).
Qed.

Lemma comb_held_ext (comb : option (list Key)) (s s' : list Key) :
  (forall x, mem x s = mem x s') -> comb_held comb s = comb_held comb s'.
Proof.
  intros H. destruct comb as [[|k c]|]; try reflexivity.
  exact (issubset_ext (k :: c) s s' H).
Qed.

Lemma mem_add_grows (k x : Key) (s : list Key) :
  mem x s = true -> mem x (add k s) = true.
Proof. intros H. rewrite mem_add, H. apply orb_true_r. Qed.

(** X23.  While keys are only pressed (a held key repeats its press), each
    hotkey signal is emitted at most once more, whatever the keys and the
    state of the listener. *)
Theorem hotkey_fires_at_most_once_while_held :
  forall s keys l,
    times s (handle_events (map Press keys) l) <= times s l + 1.
Proof.
  intros s keys l.
  assert (H : forall l,
             times s (handle_events (map Press keys) l)
             + (if noted (entry_of s) (handle_events (map Press keys) l) then 0 else 1)
             <= times s l + (if noted (entry_of s) l then 0 else 1)).
  { induction keys as [|k ks IH]; intros l0; [simpl; lia|].
    rewrite handle_events_press. etransitivity; [apply IH|].
    destruct (on_press_signal s k l0) as (-> & -> & _ & _).
    destruct (noted (entry_of s) l0),
             (comb_held (comb_of s l0) (add (normalize k) (current_keys l0)));
      simpl; lia. }
  specialize (H l).
  destruct (noted (entry_of s) (handle_events (map Press keys) l)),
           (noted (entry_of s) l); lia.
Qed.

(** X24.  From a new listener and with presses only, a hotkey signal is
    emitted exactly once if its combination is not empty and each of its
    keys is among the pressed keys after normalisation, and not at all
    otherwise. *)
Theorem hotkey_fires_when_combination_is_complete :
  forall s toggle screenshot keys,
    times s (handle_events (map Press keys) (new_listener toggle screenshot))
    = if comb_held (comb_of s (new_listener toggle screenshot))
           (map normalize keys)
      then 1 else 0.
Proof.
  intros s toggle screenshot keys.
  set (l0 := new_listener toggle screenshot).
  assert (J : forall l,
             noted (entry_of s) l = comb_held (comb_of s l) (current_keys l) ->
             times s l = (if noted (entry_of s) l then 1 else 0) ->
             noted (entry_of s) (handle_events (map Press keys) l)
             = comb_held (comb_of s (handle_events (map Press keys) l))
                 (current_keys (handle_events (map Press keys) l))
             /\ times s (handle_events (map Press keys) l)
                = (if noted (entry_of s) (handle_events (map Press keys) l)
                   then 1 else 0)).
  { induction keys as [|k ks IH]; intros l Hn Ht; [now split|].
    rewrite handle_events_press. apply IH.
    - destruct (on_press_signal s k l) as (_ & -> & -> & ->).
      destruct (noted (entry_of s) l) eqn:En; [|reflexivity].
      symmetry in Hn. simpl. symmetry.
      apply (comb_held_mono _ (current_keys l)); [|exact Hn].
      intros x. apply mem_add_grows.
    - destruct (on_press_signal s k l) as (-> & -> & _ & _).
      rewrite Ht.
      destruct (noted (entry_of s) l),
               (comb_held (comb_of s l) (add (normalize k) (current_keys l)));
        reflexivity. }
  destruct (J l0) as [Jn Jt].
  - destruct s, toggle as [[|? ?]|], screenshot as [[|? ?]|]; reflexivity.
  - now destruct s.
  - rewrite Jt, Jn, comb_of_after_presses.
    rewrite (comb_held_ext _ _ (map normalize keys)); [reflexivity|].
    intros x. rewrite mem_after_presses. simpl. apply orb_false_r.
Qed.

(** X25.  When a combination is held and one of its keys is released and
    pressed again, the signal of the combination is emitted once more. *)
Theorem hotkey_fires_again_after_release :
  forall s key l,
    in_comb (normalize key) (comb_of s l) = true ->
    comb_held (comb_of s l) (current_keys l) = true ->
    times s (on_press key (on_release key l)) = times s l + 1.
Proof.
  intros s key l Hin Hheld.
  destruct (on_release_signal s key l) as (Ht & Hn & Hk & Hc).
  destruct (on_press_signal s key (on_release key l)) as (-> & _).
  rewrite Ht, Hn, Hc, Hin. simpl.
  rewrite (comb_held_mono _ (current_keys l)); [reflexivity| |exact Hheld].
  intros x Hx. rewrite mem_add, Hk, Hx, andb_true_r.
  rewrite (key_eqb_sym x). now destruct (key_eqb (normalize key) x).
Qed.

Lemma hotkey_fires_again_after_release_witness :
  times toggle_visibility_triggered
    (handle_events
       [Press (Special "ctrl_l"); Press (Special "alt_r"); Press (KeyCode "g");
        Release (KeyCode "g"); Press (KeyCode "g")]
       (new_listener (Some [Special "ctrl"; Special "alt"; KeyCode "g"]) None))
  = 1 + 1.
Proof.
  apply (hotkey_fires_again_after_release toggle_visibility_triggered
           (KeyCode "g")
           (handle_events
              [Press (Special "ctrl_l"); Press (Special "alt_r"); Press (KeyCode "g")]
              (new_listener (Some [Special "ctrl"; Special "alt"; KeyCode "g"]) None)));
    reflexivity.
Defined.

Lemma normalize_cases (k : Key) :
  normalize k = k
  \/ normalize k = Special "ctrl" \/ normalize k = Special "alt"
  \/ normalize k = Special "shift" \/ normalize k = Special "cmd".
Proof.
  unfold normalize.
  destruct (key_eqb k (Special "ctrl_l") || key_eqb k (Special "ctrl_r")); [tauto|].
  destruct (key_eqb k (Special "alt_l") || key_eqb k (Special "alt_gr")
            || key_eqb k (Special "alt_r")); [tauto|].
  destruct (key_eqb k (Special "shift_l") || key_eqb k (Special "shift_r")); [tauto|].
  destruct (key_eqb k (Special "cmd_l") || key_eqb k (Special "cmd_r")); tauto.
Qed.

Lemma normalize_idempotent (k : Key) : normalize (normalize k) = normalize k.
Proof.
  destruct (normalize_cases k) as [H|[H|[H|[H|H]]]]; rewrite H;
    [exact H | reflexivity | reflexivity | reflexivity | reflexivity].
Qed.

(** X26.  A combination that holds the left or right variant of a
    modifier never fires: the handlers keep only normalised keys among the
    pressed keys, so such a combination is never held, whatever is pressed
    and released. *)
Theorem combination_with_variant_never_fires :
  forall s toggle screenshot k evs,
    in_comb k (comb_of s (new_listener toggle screenshot)) = true ->
    normalize k <> k ->
    times s (handle_events evs (new_listener toggle screenshot)) = 0.
Proof.
  intros s toggle screenshot k evs Hin Hk.
  set (l0 := new_listener toggle screenshot) in *.
  assert (K : forall l,
             (forall x, mem x (current_keys l) = true -> normalize x = x) ->
             times s l = 0 ->
             comb_of s l = comb_of s l0 ->
             times s (handle_events evs l) = 0).
  { induction evs as [|ev rest IH]; intros l Hnorm Ht Hc; [exact Ht|].
    change (handle_events (ev :: rest) l)
      with (handle_events rest (handle_event ev l)).
    destruct ev as [key|key]; cbn [handle_event].
    - destruct (on_press_signal s key l) as (Et & _ & Ek & Ec).
      assert (Hnorm' : forall x, mem x (add (normalize key) (current_keys l)) = true ->
                                 normalize x = x).
      { intros x. rewrite mem_add. intros H.
        apply orb_true_iff in H as [H|H]; [|now apply Hnorm].
        apply key_eqb_eq in H as <-. apply normalize_idempotent. }
      assert (Hheld : comb_held (comb_of s l)
                        (add (normalize key) (current_keys l)) = false).
      { destruct (comb_held (comb_of s l) (add (normalize key) (current_keys l)))
          eqn:E; [|reflexivity].
        exfalso. apply Hk, Hnorm'. rewrite Hc in E.
        destruct (comb_of s l0) as [[|k0 c]|]; try discriminate.
        exact (issubset_mem _ _ k E Hin). }
      apply IH.
      + now rewrite Ek.
      + rewrite Et, Hheld, Ht. reflexivity.
      + now rewrite Ec.
    - destruct (on_release_signal s key l) as (Et & _ & Ek & Ec).
      apply IH.
      + intros x. rewrite Ek. intros H. apply andb_true_iff in H as [_ H].
        now apply Hnorm.
      + now rewrite Et.
      + now rewrite Ec. }
  apply K; [discriminate | reflexivity | reflexivity].
Qed.

Lemma combination_with_variant_never_fires_witness :
  times toggle_visibility_triggered
    (handle_events
       [Press (Special "ctrl_l"); Press (KeyCode "g")]
       (new_listener (Some [Special "ctrl_l"; KeyCode "g"]) None))
  = 0.
Proof.
  apply (combination_with_variant_never_fires toggle_visibility_triggered
           (Some [Special "ctrl_l"; KeyCode "g"]) None (Special "ctrl_l")).
  - reflexivity.
  - discriminate.
Defined.

End Hotkeys.

(** ** Parsing a hotkey *)

Section ParseHotkey.

Import hotkey_listener.

Variable key_attr : string -> option Key.

Lemma parse_parts_keys (parts : list string) :
  forall acc c,
    parse_parts key_attr parts acc = Some c ->
    (forall part, In part parts -> exists key, part_key key_attr part = Some key)
    /\ (forall x, mem x c = true <->
                  mem x acc = true
                  \/ exists part, In part parts /\ part_key key_attr part = Some x).
Proof.
  induction parts as [|p rest IH]; simpl; intros acc c H.
  - injection H as <-. split; [intros part []|].
    intros x. split; [now left | intros [Hx|(part & [] & _)]; exact Hx].
  - destruct (part_key key_attr p) as [key|] eqn:Ep; [|discriminate].
    destruct (IH _ _ H) as [Hall Hmem]. split.
    + intros part [<-|Hin]; [now exists key | now apply Hall].
    + intros x. rewrite Hmem, mem_add. split.
      * intros [Hx|(part & Hin & Hp)].
        -- apply orb_true_iff in Hx as [Hx|Hx]; [|now left].
           apply key_eqb_eq in Hx as <-. right. exists p. split; [now left | exact Ep].
        -- right. exists part. split; [now right | exact Hp].
      * intros [Hx|(part & [<-|Hin] & Hp)].
        -- left. rewrite Hx. apply orb_true_r.
        -- left. rewrite Ep in Hp. injection Hp as ->. now rewrite key_eqb_refl.
        -- right. now exists part.
Qed.

Lemma lower_char_idempotent (c : ascii) : Py.lower_char (Py.lower_char c) = Py.lower_char c.
Proof. destruct c as [[] [] [] [] [] [] [] []]; reflexivity. Qed.

Lemma lower_idempotent (s : string) : Py.lower (Py.lower s) = Py.lower s.
Proof.
  induction s as [|c r IH]; simpl; [reflexivity|].
  now rewrite lower_char_idempotent, IH.
Qed.

End ParseHotkey.

(** X27.  When [_parse_hotkey] returns a combination, the combination is
    not empty and holds exactly the keys that the parts of the sequence
    (lower case, blanks removed, split at ['+']) stand for: every part
    stands for a key of the combination and every key comes from a part.
    So one part that stands for no key makes the whole sequence
    invalid. *)
Theorem parse_hotkey_combination :
  forall key_attr s c,
    hotkey_listener._parse_hotkey key_attr (Some s) = Some c ->
    c <> []
    /\ (forall part,
          In part (Py.split "+"%char (hotkey_listener.normal_form s)) ->
          exists key,
            hotkey_listener.part_key key_attr part = Some key
            /\ hotkey_listener.mem key c = true)
    /\ (forall key,
          hotkey_listener.mem key c = true ->
          exists part,
            In part (Py.split "+"%char (hotkey_listener.normal_form s))
            /\ hotkey_listener.part_key key_attr part = Some key).
Proof.
  intros key_attr s c. unfold hotkey_listener._parse_hotkey.
  destruct (negb (Py.truthy s)); [discriminate|].
  destruct (hotkey_listener.parse_parts key_attr
              (Py.split "+"%char (hotkey_listener.normal_form s)) [])
    as [[|k0 c0]|] eqn:E; try discriminate.
  intros [= <-].
  destruct (parse_parts_keys key_attr _ _ _ E) as [Hall Hmem].
  split; [discriminate|]. split.
  - intros part Hin. destruct (Hall part Hin) as [key Hk].
    exists key. split; [exact Hk|]. apply Hmem. right. now exists part.
  - intros key Hk. apply Hmem in Hk as [Hk|Hk]; [discriminate | exact Hk].
Qed.

Lemma parse_hotkey_combination_witness :
  hotkey_listener._parse_hotkey (fun _ => None) (Some "Ctrl + Alt+G")
  = Some [hotkey_listener.KeyCode "g"; hotkey_listener.Special "alt";
          hotkey_listener.Special "ctrl"]
  /\ [hotkey_listener.KeyCode "g"; hotkey_listener.Special "alt";
      hotkey_listener.Special "ctrl"] <> [].
Proof.
  assert (H : hotkey_listener._parse_hotkey (fun _ => None) (Some "Ctrl + Alt+G")
              = Some [hotkey_listener.KeyCode "g"; hotkey_listener.Special "alt";
                      hotkey_listener.Special "ctrl"]) by reflexivity.
  split; [exact H|].
  exact (proj1 (parse_hotkey_combination (fun _ => None) "Ctrl + Alt+G" _ H)).
Defined.

(** X28.  [_parse_hotkey] does not tell upper case from lower case: a
    sequence and its lower case form give the same result. *)
Theorem parse_hotkey_ignores_case :
  forall key_attr s,
    hotkey_listener._parse_hotkey key_attr (Some (Py.lower s))
    = hotkey_listener._parse_hotkey key_attr (Some s).
Proof.
  intros key_attr s. unfold hotkey_listener._parse_hotkey, hotkey_listener.normal_form.
  rewrite lower_idempotent. now destruct s.
Qed.

(** * Testing a key in the settings dialog *)

(** X29.  After [test_api_key] the client is marked as configured only if
    it was so before and either no key was entered, or a key is stored and
    [genai.configure] accepts it again: a test never marks the client as
    configured, however it ends. *)
Theorem test_api_key_never_configures :
  forall env cfg flag temp_key,
    snd (settings_dialog.test_api_key env cfg flag temp_key) = true
    <-> flag = true
        /\ (temp_key = EmptyString
            \/ exists k u, api_key cfg = Some k /\ k <> EmptyString
                           /\ configure env k = Return u).
Proof.
  intros env cfg flag temp_key. unfold settings_dialog.test_api_key.
  destruct temp_key as [|c r]; simpl.
  - split; [intros ->; split; [reflexivity | now left] | now intros [-> _]].
  - unfold settings_dialog.restore.
    destruct (api_key cfg) as [k|].
    + destruct k as [|c' r']; simpl.
      * split; [discriminate|].
        intros [_ [H|(k & u & [= <-] & Hk & _)]]; [discriminate | contradiction].
      * destruct (configure env (String c' r')) as [u|e] eqn:E.
        -- split.
           ++ intros ->. split; [reflexivity|]. right.
              exists (String c' r'), u. repeat split; [discriminate | exact E].
           ++ now intros [-> _].
        -- split; [discriminate|].
           intros [_ [H|(k & u & [= <-] & _ & Hk)]]; [discriminate|].
           rewrite E in Hk. discriminate.
    + split; [discriminate|].
      intros [_ [H|(k & u & Hk & _)]]; discriminate.
Qed.

(** X30.  While the client is not configured and no key is stored, the
    test of an entered key reports a failure whatever the library would
    answer: [list_models] tries to configure the client from the stored
    key and gives up before it asks the library. *)
Theorem test_api_key_fails_without_stored_key :
  forall env cfg temp_key u,
    temp_key <> EmptyString ->
    setting_truthy (api_key cfg) = false ->
    configure env temp_key = Return u ->
    settings_dialog.test_api_key env cfg false temp_key
    = (("API Key Test Failed",
        "Could not list models using this key." ++ Py.nl
        ++ "Error: Error: API Key not configured or invalid"),
       false).
Proof.
  intros env cfg temp_key u Ht Hk Hc. unfold settings_dialog.test_api_key.
  rewrite (truthy_nonempty _ Ht), Hc. cbn [negb].
  unfold list_models, ensure_configured, configure_genai, settings_dialog.restore.
  unfold setting_truthy in Hk.
  destruct (api_key cfg) as [k|]; [|reflexivity].
  rewrite Hk. reflexivity.
Qed.

Lemma test_api_key_fails_without_stored_key_witness :
  settings_dialog.test_api_key
    (Scenarios.listing (Return Scenarios.mixed_models))
    (mkConfig (Some EmptyString) None) false "a-valid-key"
  = (("API Key Test Failed",
      "Could not list models using this key." ++ Py.nl
      ++ "Error: Error: API Key not configured or invalid"),
     false).
Proof.
  apply (test_api_key_fails_without_stored_key
           (Scenarios.listing (Return Scenarios.mixed_models))
           (mkConfig (Some EmptyString) None) "a-valid-key" tt).
  - discriminate.
  - reflexivity.
  - reflexivity.
Defined.
